(** * Exam Planner: the focus timer and the exam store

    A shallow embedding of [FocusTimerManager] (the Pomodoro timer of the
    focus module) and of [StateManager.addExam] (state.ts), with the
    properties of the timer state machine, of the settings handlers and of
    the exam list.

    Conventions of the embedding.
    - A JavaScript number that the timer handles is an integer (minutes come
      from [parseInt] or from the integer defaults, instants from
      [Date.now()]); it is a [Z].  Saved settings read back from the store
      are taken to be integers too.  [NaN] only arises as the result of
      [parseInt] and is [None] there.  JavaScript rounds integers beyond
      2^53 to the nearest double; the embedding keeps them exact, and the
      progress quotient is an exact rational.
    - A string is a sequence of ASCII characters.
    - [number | null] is [option]; the truthiness test [if (x)] on such a
      field is [truthy], false on [null] and on [0].
    - [Date.now()] is the next reading of a clock [nat -> Z]: the world counts
      the readings made so far.
    - The page, the forest module, the notification and the store are a log
      of the calls made to them, newest first.
    - [setInterval], [setTimeout] and [clearInterval] act on the table of
      scheduled callbacks of the browser. *)

From Stdlib Require Import ZArith List String Ascii Bool Lia QArith Qminmax DecimalString.
Import ListNotations.

Local Open Scope string_scope.
Local Open Scope Z_scope.

(** ** JavaScript primitives *)

Module Js.

(** [StrWhiteSpaceChar], on the ASCII range. *)
Definition isWhiteSpace (c : ascii) : bool :=
  let n := nat_of_ascii c in
  ((9 <=? n) && (n <=? 13))%nat || (n =? 32)%nat.

Fixpoint trimStart (s : string) : string :=
  match s with
  | String c r => if isWhiteSpace c then trimStart r else s
  | EmptyString => EmptyString
  end.

(** The value of a digit in a radix up to 36, as [parseInt] reads it. *)
Definition digitValue (c : ascii) : option Z :=
  let n := Z.of_nat (nat_of_ascii c) in
  if (48 <=? n) && (n <=? 57) then Some (n - 48)
  else if (97 <=? n) && (n <=? 122) then Some (n - 87)
  else if (65 <=? n) && (n <=? 90) then Some (n - 55)
  else None.

Definition radixDigit (radix : Z) (c : ascii) : option Z :=
  match digitValue c with
  | Some d => if d <? radix then Some d else None
  | None => None
  end.

(** The longest prefix of radix digits, accumulated from the left;
    [seen] records whether any digit was read. *)
Fixpoint parseDigits (radix : Z) (s : string) (seen : bool) (acc : Z) : option Z :=
  match s with
  | String c r =>
      match radixDigit radix c with
      | Some d => parseDigits radix r true (acc * radix + d)
      | None => if seen then Some acc else None
      end
  | EmptyString => if seen then Some acc else None
  end.

Definition stripSign (s : string) : bool * string :=
  match s with
  | String "-" r => (true, r)
  | String "+" r => (false, r)
  | _ => (false, s)
  end.

Definition stripHexPrefix (s : string) : Z * string :=
  match s with
  | String "0" (String "x" r) => (16, r)
  | String "0" (String "X" r) => (16, r)
  | _ => (10, s)
  end.

(** [parseInt(s)] with no radix argument; [None] is [NaN]. *)
Definition parseInt (s : string) : option Z :=
  let (neg, s1) := stripSign (trimStart s) in
  let (radix, s2) := stripHexPrefix s1 in
  match parseDigits radix s2 false 0 with
  | Some n => Some (if neg then - n else n)
  | None => None
  end.

(** [parseInt(s) || d]: [NaN] and [0] are falsy. *)
Definition orDefault (n : option Z) (d : Z) : Z :=
  match n with
  | Some z => if z =? 0 then d else z
  | None => d
  end.

(** [if (x)] on a [number | null]. *)
Definition truthy (x : option Z) : bool :=
  match x with
  | Some z => negb (z =? 0)
  | None => false
  end.

(** [a % b === 0]: the remainder by [0] is [NaN], which is not [0]. *)
Definition remIsZero (a b : Z) : bool :=
  if b =? 0 then false else Z.rem a b =? 0.

(** [String(n)] for an integer. *)
Definition toString (n : Z) : string := NilZero.string_of_int (Z.to_int n).

(** [s.padStart(2, '0')]. *)
Definition padStart2 (s : string) : string :=
  match s with
  | EmptyString => "00"
  | String c EmptyString => String "0" (String c EmptyString)
  | _ => s
  end.

(** The quotient that [tickPomodoro] passes through [Math.min(1, _)].
    A division by zero gives an infinity or [NaN]; [Math.min(1, +Infinity)]
    is [1], [Math.min(1, NaN)] is [NaN]. *)
Inductive Progress : Type :=
  | PNaN
  | PNegInf
  | PRatio (q : Q).

Definition min1Div (elapsed total : Z) : Progress :=
  if total =? 0 then
    (if 0 <? elapsed then PRatio 1%Q
     else if elapsed =? 0 then PNaN
     else PNegInf)
  else PRatio (Qmin 1%Q (inject_Z elapsed / inject_Z total)%Q).

End Js.

(** [formatTime] (utils.ts): milliseconds as HH:MM:SS.  [Math.floor] of a
    quotient by a positive constant is [Z.div], [%] is [Z.rem]. *)
Definition formatTime (ms : Z) : string :=
  let hours := ms / 3600000 in
  let minutes := Z.rem ms 3600000 / 60000 in
  let seconds := Z.rem ms 60000 / 1000 in
  Js.padStart2 (Js.toString hours) ++ ":" ++
  Js.padStart2 (Js.toString minutes) ++ ":" ++
  Js.padStart2 (Js.toString seconds).

(** ** The focus timer: data *)

(** [PomodoroState.phase] (types.ts). *)
Inductive Phase : Type := Work | Short | Long.

(** The options of the mode selector, the argument of [switchPhase]. *)
Inductive ModeOption : Type := MWork | MShort | MLong | MVeryLong.

Definition modeOfPhase (p : Phase) : ModeOption :=
  match p with Work => MWork | Short => MShort | Long => MLong end.

(** [PomodoroState] (types.ts). *)
Record PomodoroState : Type := mkPomodoro {
  work : Z;
  short : Z;
  long : Z;
  every : Z;
  phase : Phase;
  count : Z
}.

(** [FocusSettings] (types.ts); the mode is always ['pomodoro']. *)
Record FocusSettings : Type := mkSettings {
  fs_work : Z;
  fs_short : Z;
  fs_long : Z;
  fs_every : Z
}.

Definition DEFAULT_SETTINGS : FocusSettings := mkSettings 25 5 15 4.

(** The values of the four inputs #pWork, #pShort, #pLong and #pEvery. *)
Record SettingsInputs : Type := mkInputs {
  pWork : string;
  pShort : string;
  pLong : string;
  pEvery : string
}.

(** Calls that leave the timer: the forest module, the notification, the
    cycle dots and the store. *)
Inductive Effect : Type :=
  | PlayNotification
  | RenderCycles (total shown : Z)
  | UpdateTreeGrowth (progress : Js.Progress)
  | CompleteTree
  | CancelTree
  | SaveSettings (settings : FocusSettings).

(** What the browser has been asked to call later. *)
Inductive Callback : Type :=
  | IntervalTick      (* setInterval(() => this.tickPomodoro(), 100) *)
  | ThrottleRelease.  (* setTimeout(() => (inThrottle = false), limit) *)

(** The fields of [FocusTimerManager], followed by what it acts on: the
    display element, the mode selector, the effect log, the browser's
    scheduled callbacks, the flag of the throttle around [tickPomodoro] and
    the number of clock readings made. *)
Record World : Type := mkWorld {
  timer : option positive;
  targetTime : option Z;
  startTime : option Z;
  totalDuration : Z;
  pomodoroState : PomodoroState;
  displayText : string;
  modeValue : ModeOption;
  effects : list Effect;
  scheduled : list (positive * Callback);
  nextHandle : positive;
  inThrottle : bool;
  reads : nat
}.

Definition set_timer (v : option positive) (w : World) : World :=
  mkWorld v (targetTime w) (startTime w) (totalDuration w) (pomodoroState w)
    (displayText w) (modeValue w) (effects w) (scheduled w) (nextHandle w)
    (inThrottle w) (reads w).

Definition set_targetTime (v : option Z) (w : World) : World :=
  mkWorld (timer w) v (startTime w) (totalDuration w) (pomodoroState w)
    (displayText w) (modeValue w) (effects w) (scheduled w) (nextHandle w)
    (inThrottle w) (reads w).

Definition set_startTime (v : option Z) (w : World) : World :=
  mkWorld (timer w) (targetTime w) v (totalDuration w) (pomodoroState w)
    (displayText w) (modeValue w) (effects w) (scheduled w) (nextHandle w)
    (inThrottle w) (reads w).

Definition set_totalDuration (v : Z) (w : World) : World :=
  mkWorld (timer w) (targetTime w) (startTime w) v (pomodoroState w)
    (displayText w) (modeValue w) (effects w) (scheduled w) (nextHandle w)
    (inThrottle w) (reads w).

Definition set_pomodoroState (v : PomodoroState) (w : World) : World :=
  mkWorld (timer w) (targetTime w) (startTime w) (totalDuration w) v
    (displayText w) (modeValue w) (effects w) (scheduled w) (nextHandle w)
    (inThrottle w) (reads w).

Definition set_displayText (v : string) (w : World) : World :=
  mkWorld (timer w) (targetTime w) (startTime w) (totalDuration w)
    (pomodoroState w) v (modeValue w) (effects w) (scheduled w) (nextHandle w)
    (inThrottle w) (reads w).

Definition set_modeValue (v : ModeOption) (w : World) : World :=
  mkWorld (timer w) (targetTime w) (startTime w) (totalDuration w)
    (pomodoroState w) (displayText w) v (effects w) (scheduled w)
    (nextHandle w) (inThrottle w) (reads w).

Definition set_effects (v : list Effect) (w : World) : World :=
  mkWorld (timer w) (targetTime w) (startTime w) (totalDuration w)
    (pomodoroState w) (displayText w) (modeValue w) v (scheduled w)
    (nextHandle w) (inThrottle w) (reads w).

Definition set_scheduled (v : list (positive * Callback)) (w : World) : World :=
  mkWorld (timer w) (targetTime w) (startTime w) (totalDuration w)
    (pomodoroState w) (displayText w) (modeValue w) (effects w) v
    (nextHandle w) (inThrottle w) (reads w).

Definition set_nextHandle (v : positive) (w : World) : World :=
  mkWorld (timer w) (targetTime w) (startTime w) (totalDuration w)
    (pomodoroState w) (displayText w) (modeValue w) (effects w) (scheduled w)
    v (inThrottle w) (reads w).

Definition set_inThrottle (v : bool) (w : World) : World :=
  mkWorld (timer w) (targetTime w) (startTime w) (totalDuration w)
    (pomodoroState w) (displayText w) (modeValue w) (effects w) (scheduled w)
    (nextHandle w) v (reads w).

Definition set_reads (v : nat) (w : World) : World :=
  mkWorld (timer w) (targetTime w) (startTime w) (totalDuration w)
    (pomodoroState w) (displayText w) (modeValue w) (effects w) (scheduled w)
    (nextHandle w) (inThrottle w) v.

Definition set_phase (p : Phase) (w : World) : World :=
  let ps := pomodoroState w in
  set_pomodoroState
    (mkPomodoro (work ps) (short ps) (long ps) (every ps) p (count ps)) w.

Definition set_count (c : Z) (w : World) : World :=
  let ps := pomodoroState w in
  set_pomodoroState
    (mkPomodoro (work ps) (short ps) (long ps) (every ps) (phase ps) c) w.

Definition set_settings (s : FocusSettings) (w : World) : World :=
  let ps := pomodoroState w in
  set_pomodoroState
    (mkPomodoro (fs_work s) (fs_short s) (fs_long s) (fs_every s)
       (phase ps) (count ps)) w.

Definition emit (e : Effect) (w : World) : World :=
  set_effects (e :: effects w) w.

(** ** The browser's timers *)

(** [setInterval] and [setTimeout] draw their handles from one counter. *)
Definition schedule (cb : Callback) (w : World) : positive * World :=
  let h := nextHandle w in
  (h, set_nextHandle (Pos.succ h) (set_scheduled ((h, cb) :: scheduled w) w)).

Definition unschedule (h : positive) (w : World) : World :=
  set_scheduled
    (filter (fun e => negb (Pos.eqb (fst e) h)) (scheduled w)) w.


(** ** The focus timer: operations *)

Section Handlers.

(** The successive values of [Date.now()]. *)
Variable clock : nat -> Z.

Definition dateNow (w : World) : Z * World :=
  (clock (reads w), set_reads (S (reads w)) w).

Definition updateDisplay (ms : Z) (w : World) : World :=
  set_displayText (formatTime ms) w.

Definition renderCycles (w : World) : World :=
  emit (RenderCycles (every (pomodoroState w)) (count (pomodoroState w))) w.

Definition playNotification (w : World) : World := emit PlayNotification w.

Definition currentSettings (w : World) : FocusSettings :=
  let ps := pomodoroState w in
  mkSettings (work ps) (short ps) (long ps) (every ps).

(** [saveSettings]: the settings go to [state.updateFocusSettings]. *)
Definition saveSettings (w : World) : World :=
  emit (SaveSettings (currentSettings w)) w.

(** The minutes configured for a phase. *)
Definition phaseMinutes (w : World) : Z :=
  let ps := pomodoroState w in
  match phase ps with
  | Work => work ps
  | Short => short ps
  | Long => long ps
  end.

(** [getCurrentPhaseDuration(override?)]: [if (override)] is false on
    [undefined] and on [0]. *)
Definition getCurrentPhaseDuration (override : option Z) (w : World) : Z :=
  match override with
  | Some o => if Js.truthy (Some o) then o else phaseMinutes w
  | None => phaseMinutes w
  end.

(** [pause]: a handle returned by [setInterval] is positive, so the test
    [if (this.timer)] is the test against [null]. *)
Definition pause (w : World) : World :=
  match timer w with
  | Some h => set_timer None (unschedule h w)
  | None => w
  end.

Definition clearRun (w : World) : World :=
  set_totalDuration 0 (set_startTime None (set_targetTime None w)).

Definition switchPhase (m : ModeOption) (w : World) : World :=
  let w1 := match timer w with Some _ => pause w | None => w end in
  let w2 :=
    set_phase
      match m with
      | MWork => Work
      | MShort => Short
      | MLong => Long
      | MVeryLong => Long
      end w1 in
  let minutes :=
    getCurrentPhaseDuration
      match m with MVeryLong => Some 30 | _ => None end w2 in
  clearRun (updateDisplay (minutes * 60 * 1000) w2).

(** The four assignments that open both settings handlers. *)
Definition readSettings (inp : SettingsInputs) : FocusSettings :=
  mkSettings
    (Js.orDefault (Js.parseInt (pWork inp)) (fs_work DEFAULT_SETTINGS))
    (Js.orDefault (Js.parseInt (pShort inp)) (fs_short DEFAULT_SETTINGS))
    (Js.orDefault (Js.parseInt (pLong inp)) (fs_long DEFAULT_SETTINGS))
    (Js.orDefault (Js.parseInt (pEvery inp)) (fs_every DEFAULT_SETTINGS)).

Definition refreshIdleDisplay (w : World) : World :=
  match timer w with
  | Some _ => w
  | None => updateDisplay (getCurrentPhaseDuration None w * 60 * 1000) w
  end.

Definition handleSettingsInput (inp : SettingsInputs) (w : World) : World :=
  refreshIdleDisplay (set_settings (readSettings inp) w).

Definition handleSettingsChange (inp : SettingsInputs) (w : World) : World :=
  refreshIdleDisplay
    (renderCycles (saveSettings (set_settings (readSettings inp) w))).

Definition reset (w : World) : World :=
  let w1 := set_count 0 (set_phase Work (clearRun (pause w))) in
  let w2 := set_modeValue MWork w1 in
  let w3 := updateDisplay (work (pomodoroState w2) * 60 * 1000) w2 in
  emit CancelTree (renderCycles w3).

Definition resetToDefaults (w : World) : World :=
  let w1 := set_settings DEFAULT_SETTINGS (reset w) in
  set_modeValue MWork (emit (SaveSettings DEFAULT_SETTINGS) w1).

(** The state built by the constructor, and [init] on the settings that
    the store has loaded ([null] when there are none). *)
Definition constructed : World :=
  mkWorld None None None 0
    (mkPomodoro (fs_work DEFAULT_SETTINGS) (fs_short DEFAULT_SETTINGS)
       (fs_long DEFAULT_SETTINGS) (fs_every DEFAULT_SETTINGS) Work 0)
    "" MWork [] [] 1%positive false 0.

Definition init (saved : option FocusSettings) (w : World) : World :=
  let w1 :=
    set_settings
      match saved with Some s => s | None => DEFAULT_SETTINGS end w in
  let w2 := set_modeValue MWork (set_phase Work w1) in
  updateDisplay (work (pomodoroState w2) * 60 * 1000) (renderCycles w2).

(** [throttle(fn, limit)] (utils.ts): the flag is raised after [fn] has
    returned, so a call of the throttled function from inside [fn] is not
    held back. *)
Definition armThrottle (w : World) : World :=
  snd (schedule ThrottleRelease (set_inThrottle true w)).

Definition throttle (fn : World -> option World) (w : World) : option World :=
  if inThrottle w then Some w
  else
    match fn w with
    | Some w1 => Some (armThrottle w1)
    | None => None
    end.

(** The callback of the throttle's [setTimeout], under handle [h]. *)
Definition throttleRelease (h : positive) (w : World) : World :=
  set_inThrottle false (unschedule h w).

Section OpenRecursion.

(** [this.tickPomodoro], as called from [startPomodoro]. *)
Variable tick : World -> option World.

Definition startPomodoro (w : World) : option World :=
  let w1 :=
    if negb (Js.truthy (targetTime w)) then
      let minutes := phaseMinutes w in
      let (now, wa) := dateNow w in
      let total := minutes * 60 * 1000 in
      set_targetTime (Some (now + total))
        (set_totalDuration total (set_startTime (Some now) wa))
    else
      let target := match targetTime w with Some t => t | None => 0 end in
      let (now1, wa) := dateNow w in
      let remainingTime := target - now1 in
      if 0 <? remainingTime then
        let (now2, wb) := dateNow wa in
        set_targetTime (Some (now2 + remainingTime))
          (set_totalDuration remainingTime (set_startTime (Some now2) wb))
      else wa in
  let (h, w2) := schedule IntervalTick w1 in
  tick (set_timer (Some h) w2).

Definition start (w : World) : option World :=
  match timer w with
  | Some _ => Some w
  | None => startPomodoro w
  end.

(** Lines 279 to 313 of the handler: everything before the auto-start. *)
Definition completePhase (w : World) : World :=
  let w1 := pause (playNotification w) in
  let w2 :=
    match phase (pomodoroState w1) with
    | Work =>
        let wa := set_count (count (pomodoroState w1) + 1) w1 in
        let wb := emit CompleteTree (renderCycles wa) in
        let isLongBreak :=
          Js.remIsZero (count (pomodoroState wb)) (every (pomodoroState wb)) in
        set_phase (if isLongBreak then Long else Short) wb
    | _ => set_phase Work w1
    end in
  let w3 := set_modeValue (modeOfPhase (phase (pomodoroState w2))) w2 in
  let w4 := clearRun w3 in
  updateDisplay (getCurrentPhaseDuration None w4 * 60 * 1000) w4.

Definition handlePomodoroPhaseComplete (w : World) : option World :=
  startPomodoro (completePhase w).

(** The function that [tickPomodoro] throttles. *)
Definition tickBody (w : World) : option World :=
  if negb (Js.truthy (targetTime w)) || negb (Js.truthy (startTime w))
  then Some w
  else
    let target := match targetTime w with Some t => t | None => 0 end in
    let started := match startTime w with Some t => t | None => 0 end in
    let (now, w1) := dateNow w in
    let diff := Z.max 0 (target - now) in
    let elapsed := now - started in
    let progress := Js.min1Div elapsed (totalDuration w1) in
    let w2 := updateDisplay diff w1 in
    let w3 :=
      match phase (pomodoroState w2) with
      | Work => emit (UpdateTreeGrowth progress) w2
      | _ => w2
      end in
    if diff <=? 0 then handlePomodoroPhaseComplete w3 else Some w3.

End OpenRecursion.

(** [tickPomodoro]: the nesting of ticks inside phase completions is
    bounded by [fuel]; [None] is a call stack deeper than that. *)
Fixpoint tickPomodoro (fuel : nat) (w : World) : option World :=
  match fuel with
  | O => None
  | S f => throttle (tickBody (tickPomodoro f)) w
  end.

(** What the user and the browser can do to the timer.  A change of the
    mode selector carries the chosen option: the selector holds it when
    the listener calls [switchPhase]. *)
Inductive Event : Type :=
  | EStart
  | EPause
  | EReset
  | EResetToDefaults
  | ESwitchPhase (m : ModeOption)
  | ESettingsInput (inp : SettingsInputs)
  | ESettingsChange (inp : SettingsInputs)
  | EInterval (h : positive)
  | ETimeout (h : positive).

Definition handle (fuel : nat) (e : Event) (w : World) : option World :=
  match e with
  | EStart => start (tickPomodoro fuel) w
  | EPause => Some (pause w)
  | EReset => Some (reset w)
  | EResetToDefaults => Some (resetToDefaults w)
  | ESwitchPhase m => Some (switchPhase m (set_modeValue m w))
  | ESettingsInput inp => Some (handleSettingsInput inp w)
  | ESettingsChange inp => Some (handleSettingsChange inp w)
  | EInterval h =>
      if existsb (fun e => Pos.eqb (fst e) h
                           && match snd e with IntervalTick => true | _ => false end)
           (scheduled w)
      then tickPomodoro fuel w else None
  | ETimeout h =>
      if existsb (fun e => Pos.eqb (fst e) h
                           && match snd e with ThrottleRelease => true | _ => false end)
           (scheduled w)
      then Some (throttleRelease h w) else None
  end.

(** Running a list of events in order. *)
Fixpoint run (fuel : nat) (es : list Event) (w : World) : option World :=
  match es with
  | [] => Some w
  | e :: r =>
      match handle fuel e w with
      | Some w1 => run fuel r w1
      | None => None
      end
  end.

(** The states of the timer of a page: those that a run of events reaches
    from the initialised timer. *)
Definition reachable (w : World) : Prop :=
  exists saved fuel es, run fuel es (init saved constructed) = Some w.

(** The three states of the specification, read off the fields. *)
Definition Running (w : World) : Prop := timer w <> None.
Definition Paused (w : World) : Prop := timer w = None /\ targetTime w <> None.
Definition Idle (w : World) : Prop := timer w = None /\ targetTime w = None.

(** The remaining time of the countdown at instant [now]. *)
Definition remainingAt (now : Z) (w : World) : Z :=
  match targetTime w with
  | Some t => Z.max 0 (t - now)
  | None => 0
  end.

End Handlers.

(** ** The exam store (state.ts) *)

Module ExamStore.

(** [Exam] (types.ts); an optional field is an [option]. *)
Record Exam : Type := mkExam {
  id : string;
  title : string;
  date : string;
  time : option string;
  tag : string;
  notes : option string;
  createdAt : string;
  completed : option bool
}.

(** [LIMITS.EXAMS_MAX] (types.ts). *)
Definition EXAMS_MAX : nat := 1000.

(** What [addExam] does besides changing the list. *)
Inductive StoreEffect : Type :=
  | Toast (message : string) (duration : Z)
  | Persist
  | Notify.

(** The list of [AppState.exams] and the log of effects, newest first. *)
Record Store : Type := mkStore {
  exams : list Exam;
  storeLog : list StoreEffect
}.

(** A call either returns a boolean or lets the [TypeError] of
    [formatDate] escape. *)
Inductive Outcome : Type :=
  | Returned (b : bool)
  | Thrown.

Definition isDigit (c : ascii) : bool :=
  let n := nat_of_ascii c in ((48 <=? n) && (n <=? 57))%nat.

(** [/^\d{4}-\d{2}-\d{2}$/.test(s)]. *)
Definition isDateOnly (s : string) : bool :=
  match s with
  | String y1 (String y2 (String y3 (String y4 (String "-"
      (String m1 (String m2 (String "-"
        (String d1 (String d2 EmptyString))))))))) =>
      isDigit y1 && isDigit y2 && isDigit y3 && isDigit y4
      && isDigit m1 && isDigit m2 && isDigit d1 && isDigit d2
  | _ => false
  end.

(** [toLowerCase] on the ASCII range. *)
Definition lowerChar (c : ascii) : ascii :=
  let n := nat_of_ascii c in
  if ((65 <=? n) && (n <=? 90))%nat then ascii_of_nat (n + 32) else c.

Fixpoint asciiLower (s : string) : string :=
  match s with
  | String c r => String (lowerChar c) (asciiLower r)
  | EmptyString => EmptyString
  end.

Section AddExam.

(** [formatDate(new Date(s))]: the local calendar date of a date string
    that is not already YYYY-MM-DD, [None] when [new Date(s)] is an
    invalid date and [formatDate] throws.  It depends on the date parser
    and the time zone of the browser. *)
Variable localDate : string -> option string.

(** [String.prototype.toLowerCase]. *)
Variable toLowerCase : string -> string.

(** [extractDateString] on a string; [None] is the thrown [TypeError]. *)
Definition extractDateString (dateInput : string) : option string :=
  if isDateOnly dateInput then Some dateInput else localDate dateInput.

(** The callback given to [some]. *)
Definition sameExam (newTitle newExamDate : string) (e : Exam) : option bool :=
  match extractDateString (date e) with
  | Some existingDate =>
      Some (String.eqb (toLowerCase (title e)) (toLowerCase newTitle)
            && String.eqb existingDate newExamDate)
  | None => None
  end.

(** [Array.prototype.some]: in order, up to the first element on which
    the callback is true; [None] when the callback throws first. *)
Fixpoint some (f : Exam -> option bool) (l : list Exam) : option bool :=
  match l with
  | [] => Some false
  | e :: r =>
      match f e with
      | Some true => Some true
      | Some false => some f r
      | None => None
      end
  end.

Definition showToast (message : string) (duration : Z) (s : Store) : Store :=
  mkStore (exams s) (Toast message duration :: storeLog s).

Definition persist (s : Store) : Store :=
  mkStore (exams s) (Persist :: storeLog s).

Definition notify (s : Store) : Store :=
  mkStore (exams s) (Notify :: storeLog s).

Definition push (exam : Exam) (s : Store) : Store :=
  mkStore (exams s ++ [exam]) (storeLog s).

Definition addExam (exam : Exam) (s : Store) : Outcome * Store :=
  if (EXAMS_MAX <=? List.length (exams s))%nat then
    (Returned false, showToast "Maximum 1000 exams reached!" 5000 s)
  else
    match extractDateString (date exam) with
    | None => (Thrown, s)
    | Some newExamDate =>
        match some (sameExam (title exam) newExamDate) (exams s) with
        | None => (Thrown, s)
        | Some isDuplicate =>
            let s1 :=
              if isDuplicate
              then showToast "Similar exam already exists!" 3000 s
              else s in
            (Returned true, notify (persist (push exam s1)))
        end
    end.

(** Every stored exam has a date that [extractDateString] accepts. *)
Definition datesValid (s : Store) : Prop :=
  Forall (fun e => extractDateString (date e) <> None) (exams s).

End AddExam.

End ExamStore.

(** ** Predicates of the statements *)

(** The input, after its leading white space, starts with a minus sign. *)
Definition hasMinusSign (s : string) : bool :=
  fst (Js.stripSign (Js.trimStart s)).

(** What a settings handler stores for an input [s] with default [d]: the
    default when [parseInt] gives [NaN] or [0], the parsed integer
    otherwise. *)
Definition normalised (s : string) (d v : Z) : Prop :=
  match Js.parseInt s with
  | None => v = d
  | Some n => (n = 0 -> v = d) /\ (n <> 0 -> v = n)
  end.

(** The two timestamps are both set or both unset, and set while the
    periodic tick is scheduled. *)
Definition timestampsPaired (w : World) : Prop :=
  (targetTime w = None <-> startTime w = None)
  /\ (timer w <> None -> targetTime w <> None).

(** A property that a partial operation carries from the world it is given
    to the world it returns. *)
Definition preserves (P : World -> Prop) (f : World -> option World) : Prop :=
  forall w w', P w -> f w = Some w' -> P w'.

(** What a tick pushes to the forest: the progress, in the work phase. *)
Definition growthPushed (w : World) (progress : Js.Progress) : list Effect :=
  match phase (pomodoroState w) with
  | Work => [UpdateTreeGrowth progress]
  | Short | Long => []
  end.

(** The phase that follows a completed one, and the count after it. *)
Definition nextPhase (ps : PomodoroState) : Phase :=
  match phase ps with
  | Work => if Js.remIsZero (count ps + 1) (every ps) then Long else Short
  | Short | Long => Work
  end.

Definition nextCount (ps : PomodoroState) : Z :=
  match phase ps with
  | Work => count ps + 1
  | Short | Long => count ps
  end.

(** All four settings are positive. *)
Definition settingsPositive (s : FocusSettings) : Prop :=
  0 < fs_work s /\ 0 < fs_short s /\ 0 < fs_long s /\ 0 < fs_every s.

(** ** Concrete inputs *)

(** A clock given by its first readings; the last one repeats. *)
Definition clockOf (readings : list Z) (n : nat) : Z :=
  nth n readings (last readings 0).

(** A timer that was started at instant 1000 with the default settings. *)
Definition startedWorld : World :=
  mkWorld (Some 1%positive) (Some 1501000) (Some 1000) 1500000
    (mkPomodoro 25 5 15 4 Work 0) "00:25:00" MWork
    [UpdateTreeGrowth (Js.PRatio (0 # 1500000)); RenderCycles 4 0]
    [(2%positive, ThrottleRelease); (1%positive, IntervalTick)]
    3%positive true 2.


(** The timer of a fresh page, with no saved settings. *)
Definition freshWorld : World := init None constructed.

(** Inputs whose work field is a negative number. *)
Definition negativeWorkInputs : SettingsInputs := mkInputs "-5" "5" "15" "4".

(** Start on a fresh page at instant 1000, then pause. *)
Definition pauseClock : nat -> Z := clockOf [1000; 1000; 62000; 62000; 62000].

Definition pausedWorld : World :=
  mkWorld None (Some 1501000) (Some 1000) 1500000
    (mkPomodoro 25 5 15 4 Work 0) "00:25:00" MWork
    [UpdateTreeGrowth (Js.PRatio (0 # 1500000)); RenderCycles 4 0]
    [(2%positive, ThrottleRelease)]
    3%positive true 2.

(** The started timer once the throttle has been released. *)
Definition releasedWorld : World :=
  mkWorld (Some 1%positive) (Some 1501000) (Some 1000) 1500000
    (mkPomodoro 25 5 15 4 Work 0) "00:25:00" MWork
    [UpdateTreeGrowth (Js.PRatio (0 # 1500000)); RenderCycles 4 0]
    [(1%positive, IntervalTick)]
    3%positive false 2.

Definition tickClock : nat -> Z := clockOf [1000; 1000; 1100].

(** A store holding one exam, and a new exam with the same title in
    another case on the same day.  The date parser of this store accepts
    nothing but YYYY-MM-DD. *)
Definition noLocalDate (_ : string) : option string := None.

Definition mathExam : ExamStore.Exam :=
  ExamStore.mkExam "a1" "Math" "2025-01-15" None "#fff5b1" None
    "2025-01-01T00:00:00.000Z" None.

Definition mathAgain : ExamStore.Exam :=
  ExamStore.mkExam "b2" "MATH" "2025-01-15" None "#fff5b1" None
    "2025-01-02T00:00:00.000Z" None.

Definition oneExamStore : ExamStore.Store := ExamStore.mkStore [mathExam] [].

(** The end-to-end scenario of the specification: one-minute work and
    short-break phases, a long break every second cycle, and a clock that
    advances by one minute between the ticks that are let through. *)
Definition scenarioWorld : World :=
  init (Some (mkSettings 1 1 5 2)) constructed.

Definition scenarioClock : nat -> Z :=
  clockOf [1000; 1000; 61000; 61000; 61000; 121000; 121000; 121000;
           181000; 181000; 181000].

Definition firstMinute : list Event :=
  [EStart; ETimeout 2; EInterval 1].

Definition secondMinute : list Event :=
  firstMinute ++ [ETimeout 4; ETimeout 5; EInterval 3].

Definition thirdMinute : list Event :=
  secondMinute ++ [ETimeout 7; ETimeout 8; EInterval 6].

Definition phaseAndCount (o : option World) : option (Phase * Z * bool) :=
  match o with
  | Some w =>
      Some (phase (pomodoroState w), count (pomodoroState w),
            match timer w with Some _ => true | None => false end)
  | None => None
  end.

Definition fullStore : ExamStore.Store :=
  ExamStore.mkStore (repeat mathExam 1000) [].

From Stdlib Require DecimalPos DecimalZ.

(** ** The steps of a tick *)

(** What the throttled function does before it tests the remaining time:
    one clock reading, the display, and the growth in the work phase. *)
Definition tickPush (clock : nat -> Z) (w : World) : World :=
  let target := match targetTime w with Some t => t | None => 0 end in
  let started := match startTime w with Some t => t | None => 0 end in
  let now := clock (reads w) in
  let w2 := updateDisplay (Z.max 0 (target - now)) (set_reads (S (reads w)) w) in
  match phase (pomodoroState w2) with
  | Work =>
      emit (UpdateTreeGrowth (Js.min1Div (now - started) (totalDuration w))) w2
  | Short | Long => w2
  end.

(** The test [diff <= 0] of the tick. *)
Definition expiredAt (clock : nat -> Z) (w : World) : bool :=
  let target := match targetTime w with Some t => t | None => 0 end in
  Z.max 0 (target - clock (reads w)) <=? 0.

(** The state on which [startPomodoro] runs its first tick when there is
    no target time: the phase begins at the next clock reading. *)
Definition beginPhase (clock : nat -> Z) (w : World) : World :=
  let now := clock (reads w) in
  let total := phaseMinutes w * 60 * 1000 in
  let w1 :=
    set_targetTime (Some (now + total))
      (set_totalDuration total
         (set_startTime (Some now) (set_reads (S (reads w)) w))) in
  set_timer (Some (nextHandle w1)) (snd (schedule IntervalTick w1)).

(** The handles under which a periodic tick is scheduled. *)
Definition intervalHandles (w : World) : list positive :=
  map fst
    (filter (fun e => match snd e with IntervalTick => true | _ => false end)
       (scheduled w)).

(** The browser's table is consistent with the timer: handles are not
    reused, and the periodic tick is scheduled once, under the handle that
    the timer holds, or not at all when it holds none. *)
Definition timersConsistent (w : World) : Prop :=
  NoDup (map fst (scheduled w))
  /\ Forall (fun e => (fst e < nextHandle w)%positive) (scheduled w)
  /\ intervalHandles w = match timer w with Some h => [h] | None => [] end.

(** [syncSettingsToUI]: the strings written to the four inputs. *)
Definition syncSettingsToUI (w : World) : SettingsInputs :=
  let ps := pomodoroState w in
  mkInputs (Js.toString (work ps)) (Js.toString (short ps))
    (Js.toString (long ps)) (Js.toString (every ps)).

(** The world after the first tick that the throttle lets through on
    [releasedWorld]. *)
Definition tickedWorld : World :=
  match tickPomodoro tickClock 1 releasedWorld with
  | Some w => w
  | None => releasedWorld
  end.

(** The minutes of the current phase under given settings. *)
Definition minutesOf (s : FocusSettings) (p : Phase) : Z :=
  match p with
  | Work => fs_work s
  | Short => fs_short s
  | Long => fs_long s
  end.

(** A clock for a start at instant 5000 with a first tick 3 ms later. *)
Definition startClock : nat -> Z := clockOf [5000; 5003].

(** The settings are integers that a JavaScript number holds exactly and
    that [String] prints in plain decimal digits. *)
Definition plainSettings (s : FocusSettings) : Prop :=
  Z.abs (fs_work s) < 2 ^ 53 /\ Z.abs (fs_short s) < 2 ^ 53
  /\ Z.abs (fs_long s) < 2 ^ 53 /\ Z.abs (fs_every s) < 2 ^ 53.

(** A setting as the inputs give it back: [0] becomes the default. *)
Definition zeroToDefault (n d : Z) : Z := if n =? 0 then d else n.

(** ** The other operations of the exam store (state.ts) *)

Module ExamOps.

Import ExamStore.

(** [Partial<Exam>]: a key is absent ([None]) or carries a value; the
    value of an optional field may itself be [undefined]. *)
Record ExamUpdates : Type := mkUpdates {
  u_id : option string;
  u_title : option string;
  u_date : option string;
  u_time : option (option string);
  u_tag : option string;
  u_notes : option (option string);
  u_createdAt : option string;
  u_completed : option (option bool)
}.

Definition orOld {A : Type} (new : option A) (old : A) : A :=
  match new with Some v => v | None => old end.

(** [{ ...exam, ...updates }]. *)
Definition merge (e : Exam) (u : ExamUpdates) : Exam :=
  mkExam (orOld (u_id u) (id e)) (orOld (u_title u) (title e))
    (orOld (u_date u) (date e)) (orOld (u_time u) (time e))
    (orOld (u_tag u) (tag e)) (orOld (u_notes u) (notes e))
    (orOld (u_createdAt u) (createdAt e)) (orOld (u_completed u) (completed e)).

(** [findIndex((e) => e.id === id)]; [None] is [-1]. *)
Fixpoint findIndex (examId : string) (l : list Exam) : option nat :=
  match l with
  | [] => None
  | e :: r =>
      if String.eqb (id e) examId then Some O
      else match findIndex examId r with
           | Some i => Some (S i)
           | None => None
           end
  end.

(** [l[i] = v] for an index inside the list. *)
Fixpoint setAt (i : nat) (v : Exam) (l : list Exam) : list Exam :=
  match l, i with
  | [], _ => []
  | _ :: r, O => v :: r
  | e :: r, S j => e :: setAt j v r
  end.

Definition committed (l : list Exam) (s : Store) : Store :=
  mkStore l (Notify :: Persist :: storeLog s).

Definition updateExam (examId : string) (u : ExamUpdates) (s : Store)
  : bool * Store :=
  match findIndex examId (exams s) with
  | None => (false, s)
  | Some index =>
      match nth_error (exams s) index with
      | Some e => (true, committed (setAt index (merge e u) (exams s)) s)
      | None => (false, s)
      end
  end.

(** [!exam.completed]: [undefined] is falsy. *)
Definition isCompleted (e : Exam) : bool :=
  match completed e with Some b => b | None => false end.

Definition withCompleted (b : bool) (e : Exam) : Exam :=
  mkExam (id e) (title e) (date e) (time e) (tag e) (notes e) (createdAt e)
    (Some b).

(** [toggleExamCompletion]: [find] gives the first exam with the id, which
    is changed in place. *)
Definition toggleExamCompletion (examId : string) (s : Store) : bool * Store :=
  match findIndex examId (exams s) with
  | None => (false, s)
  | Some index =>
      match nth_error (exams s) index with
      | Some e =>
          (true,
           committed (setAt index (withCompleted (negb (isCompleted e)) e)
                        (exams s)) s)
      | None => (false, s)
      end
  end.

(** [deleteExam]: the filtered list replaces the old one in both
    outcomes. *)
Definition deleteExam (examId : string) (s : Store) : bool * Store :=
  let initialLength := List.length (exams s) in
  let kept := filter (fun e => negb (String.eqb (id e) examId)) (exams s) in
  if (List.length kept <? initialLength)%nat
  then (true, committed kept s)
  else (false, mkStore kept (storeLog s)).

Section Dates.

Variable localDate : string -> option string.

(** [Array.prototype.filter] with a callback that may throw. *)
Fixpoint filterDate (day : string) (l : list Exam) : option (list Exam) :=
  match l with
  | [] => Some []
  | e :: r =>
      match extractDateString localDate (date e) with
      | None => None
      | Some examDate =>
          match filterDate day r with
          | Some rest =>
              Some (if String.eqb examDate day then e :: rest else rest)
          | None => None
          end
      end
  end.

(** [getExamsForDate]; [None] is the [TypeError] of [formatDate]. *)
Definition getExamsForDate (day : string) (s : Store) : option (list Exam) :=
  filterDate day (exams s).

End Dates.

End ExamOps.

(** ** The timetable of the store (state.ts) *)

Module Timetable.

(** [TimetableBlock] (types.ts). *)
Record TimetableBlock : Type := mkBlock {
  b_id : string;
  b_title : string;
  b_date : string;
  b_start : string;
  b_end : option string;
  b_tag : string
}.

(** [LIMITS.TIMETABLE_MAX] (types.ts). *)
Definition TIMETABLE_MAX : nat := 500.

(** [AppState.timetable] and the log of effects, newest first. *)
Record Store : Type := mkStore {
  timetable : list TimetableBlock;
  storeLog : list ExamStore.StoreEffect
}.

Definition committed (l : list TimetableBlock) (s : Store) : Store :=
  mkStore l (ExamStore.Notify :: ExamStore.Persist :: storeLog s).

Definition addTimetableBlock (block : TimetableBlock) (s : Store)
  : bool * Store :=
  if (TIMETABLE_MAX <=? List.length (timetable s))%nat then
    (false,
     mkStore (timetable s)
       (ExamStore.Toast "Maximum 500 timetable blocks reached!" 5000
        :: storeLog s))
  else (true, committed (timetable s ++ [block]) s).

Definition deleteTimetableBlock (blockId : string) (s : Store) : bool * Store :=
  let initialLength := List.length (timetable s) in
  let kept :=
    filter (fun b => negb (String.eqb (b_id b) blockId)) (timetable s) in
  if (List.length kept <? initialLength)%nat
  then (true, committed kept s)
  else (false, mkStore kept (storeLog s)).

Definition getTimetableForDate (day : string) (s : Store)
  : list TimetableBlock :=
  filter (fun b => String.eqb (b_date b) day) (timetable s).

End Timetable.

(** An exam with its completion flag made explicit. *)
Definition explicitCompletion (e : ExamStore.Exam) : ExamStore.Exam :=
  ExamOps.withCompleted (ExamOps.isCompleted e) e.

Definition physicsExam : ExamStore.Exam :=
  ExamStore.mkExam "c3" "Physics" "2025-02-01" None "#fff5b1" None
    "2025-01-03T00:00:00.000Z" None.

Definition twoExamStore : ExamStore.Store :=
  ExamStore.mkStore [mathExam; physicsExam] [].

Definition retitle : ExamOps.ExamUpdates :=
  ExamOps.mkUpdates None (Some "Algebra") None None None None None None.


(** ** Utilities (utils.ts) *)

Module Utils.

(** [trimEnd], on the ASCII white space. *)
Fixpoint trimEnd (s : string) : string :=
  match s with
  | EmptyString => EmptyString
  | String c r =>
      match trimEnd r with
      | EmptyString => if Js.isWhiteSpace c then EmptyString else String c EmptyString
      | r' => String c r'
      end
  end.

(** [String.prototype.trim]. *)
Definition trim (s : string) : string := trimEnd (Js.trimStart s).

(** [s.replace(/[<>]/g, '')]. *)
Fixpoint removeAngles (s : string) : string :=
  match s with
  | EmptyString => EmptyString
  | String c r =>
      if Ascii.eqb c "<" || Ascii.eqb c ">" then removeAngles r
      else String c (removeAngles r)
  end.

(** [sanitizeInput(input, maxLength?)]; the callers pass no limit or a
    positive whole number, and [if (maxLength)] is false on [0]. *)
Definition sanitizeInput (input : string) (maxLength : option nat) : string :=
  let sanitized := removeAngles (trim input) in
  match maxLength with
  | Some (S n) => String.substring 0 (S n) sanitized
  | Some O | None => sanitized
  end.

Definition isDigit (c : ascii) : bool :=
  let n := nat_of_ascii c in ((48 <=? n) && (n <=? 57))%nat.

Definition isHexDigit (c : ascii) : bool :=
  let n := nat_of_ascii c in
  (((48 <=? n) && (n <=? 57)) || ((65 <=? n) && (n <=? 70))
   || ((97 <=? n) && (n <=? 102)))%nat.

(** [isValidHexColor]: [/^#[0-9A-Fa-f]{6}$/]. *)
Definition isValidHexColor (color : string) : bool :=
  match color with
  | String "#" (String a (String b (String c (String d (String e
      (String f EmptyString)))))) =>
      isHexDigit a && isHexDigit b && isHexDigit c
      && isHexDigit d && isHexDigit e && isHexDigit f
  | _ => false
  end.

(** [isValidTime]: [/^([01]\d|2[0-3]):([0-5]\d)$/]. *)
Definition isValidTime (time : string) : bool :=
  match time with
  | String h1 (String h2 (String ":" (String m1 (String m2 EmptyString)))) =>
      let a := nat_of_ascii h1 in
      let b := nat_of_ascii h2 in
      let c := nat_of_ascii m1 in
      ((((48 <=? a) && (a <=? 49) && isDigit h2)
        || ((a =? 50) && (48 <=? b) && (b <=? 51)))
       && ((48 <=? c) && (c <=? 53)) && isDigit m2)%nat
  | _ => false
  end.

(** [time.split(':').map(Number)] followed by [h * 60 + m], as
    [validateTimetableBlock] computes it for a time that [isValidTime]
    accepts: two decimal digits on each side of the colon. *)
Definition minutesOfDay (time : string) : Z :=
  match time with
  | String h1 (String h2 (String _ (String m1 (String m2 _)))) =>
      let v c := Z.of_nat (nat_of_ascii c) - 48 in
      (v h1 * 10 + v h2) * 60 + (v m1 * 10 + v m2)
  | _ => 0
  end.

(** A time of day as the validators read it. *)
Definition timeText (h m : Z) : string :=
  Js.padStart2 (Js.toString h) ++ ":" ++ Js.padStart2 (Js.toString m).

(** The three numbers that [formatTime] prints. *)
Definition timeFields (ms : Z) : Z * Z * Z :=
  (ms / 3600000, Z.rem ms 3600000 / 60000, Z.rem ms 60000 / 1000).

(** [daysBetween] on two valid dates, given by their [getTime()]:
    [Math.ceil] of the quotient by the milliseconds of a day. *)
Definition msPerDay : Z := 1000 * 60 * 60 * 24.

Definition daysBetween (a b : Z) : Z := - ((- (b - a)) / msPerDay).

(** The text of the chip that [createDaysChip] (examList.ts) puts beside
    an exam, from the instants of now and of the exam. *)
Definition daysChip (now examDate : Z) : string :=
  let days := daysBetween now examDate in
  if days =? 0 then "Today!"
  else if days <? 0 then "Done"
  else Js.toString days ++ "d".

(** The local calendar fields of a valid [Date]: [getFullYear()],
    [getMonth()] (from 0) and [getDate()]. *)
Record LocalDate : Type := mkLocalDate {
  fullYear : Z;
  monthIndex : Z;
  dayOfMonth : Z
}.

(** [formatDate] on a valid date. *)
Definition formatDate (d : LocalDate) : string :=
  Js.toString (fullYear d) ++ "-"
  ++ Js.padStart2 (Js.toString (monthIndex d + 1)) ++ "-"
  ++ Js.padStart2 (Js.toString (dayOfMonth d)).

(** The characters of a string. *)
Fixpoint chars (s : string) : list ascii :=
  match s with
  | EmptyString => []
  | String c r => c :: chars r
  end.

End Utils.

(** Checks run over a finite range of numbers. *)
Definition twoDigitsCheck (k : nat) : bool :=
  String.eqb
    (Js.padStart2 (Js.toString (Z.of_nat k)))
    (String (ascii_of_nat (48 + k / 10))
       (String (ascii_of_nat (48 + k mod 10)) EmptyString)).

Definition fourDigitsCheck (k : nat) : bool :=
  match Js.toString (Z.of_nat k) with
  | String a (String b (String c (String d EmptyString))) =>
      Utils.isDigit a && Utils.isDigit b && Utils.isDigit c && Utils.isDigit d
  | _ => false
  end.

Definition timeCheck (k : nat) : bool :=
  let h := Z.of_nat (k / 60) in
  let m := Z.of_nat (k mod 60) in
  Utils.isValidTime (Utils.timeText h m)
  && (Utils.minutesOfDay (Utils.timeText h m) =? h * 60 + m).

(** ** Validation (validation.ts) *)

Module Validation.

(** [ValidationError] (types.ts). *)
Record ValidationError : Type := mkError {
  field : string;
  message : string
}.

(** [LIMITS.TITLE_MAX] and [LIMITS.NOTES_MAX] (types.ts). *)
Definition TITLE_MAX : nat := 100.
Definition NOTES_MAX : nat := 500.

(** [Partial<Exam>] as the validators read it: a field is a string or is
    missing ([undefined] or absent). *)
Record ExamDraft : Type := mkDraft {
  d_id : option string;
  d_title : option string;
  d_date : option string;
  d_time : option string;
  d_tag : option string;
  d_notes : option string;
  d_createdAt : option string;
  d_completed : option bool
}.

(** [Partial<TimetableBlock>], in the same way. *)
Record BlockDraft : Type := mkBlockDraft {
  k_id : option string;
  k_title : option string;
  k_date : option string;
  k_start : option string;
  k_end : option string;
  k_tag : option string
}.

(** The truthiness of a string that may be missing: the empty string is
    falsy. *)
Definition present (o : option string) : option string :=
  match o with
  | Some (String c r) => Some (String c r)
  | _ => None
  end.

Definition titleErrors (title : option string) : list ValidationError :=
  match present title with
  | None => [mkError "title" "Title is required"]
  | Some t =>
      if (String.length (Utils.trim t) =? 0)%nat
      then [mkError "title" "Title is required"]
      else if (TITLE_MAX <? String.length t)%nat
           then [mkError "title" "Title must be less than 100 characters"]
           else []
  end.

Definition tagErrors (tag : option string) : list ValidationError :=
  match present tag with
  | None => [mkError "tag" "Color tag is required"]
  | Some t =>
      if Utils.isValidHexColor t then []
      else [mkError "tag" "Invalid color format (use #RRGGBB)"]
  end.

Section Validators.

(** [!isNaN(new Date(s).getTime())]: the date parser of the browser. *)
Variable isValidDate : string -> bool.

(** [String.prototype.toLowerCase]. *)
Variable toLowerCase : string -> string.

Definition validateExam (data : ExamDraft) : list ValidationError :=
  (titleErrors (d_title data)
   ++ match present (d_date data) with
      | None => [mkError "date" "Date is required"]
      | Some d =>
          if isValidDate d then []
          else [mkError "date" "Invalid date format"]
      end
   ++ match present (d_time data) with
      | Some t =>
          if Utils.isValidTime t then []
          else [mkError "time" "Invalid time format (use HH:MM)"]
      | None => []
      end
   ++ tagErrors (d_tag data)
   ++ match present (d_notes data) with
      | Some n =>
          if (NOTES_MAX <? String.length n)%nat
          then [mkError "notes" "Notes must be less than 500 characters"]
          else []
      | None => []
      end)%list.

(** [data.tag?.toLowerCase() || undefined]. *)
Definition sanitizeTag (tag : option string) : option string :=
  match tag with
  | Some t => present (Some (toLowerCase t))
  | None => None
  end.

Definition sanitizeText (text : option string) (limit : nat) : option string :=
  match present text with
  | Some t => Some (Utils.sanitizeInput t (Some limit))
  | None => None
  end.

Definition sanitizeExam (data : ExamDraft) : ExamDraft :=
  mkDraft (d_id data) (sanitizeText (d_title data) TITLE_MAX) (d_date data)
    (d_time data) (sanitizeTag (d_tag data))
    (sanitizeText (d_notes data) NOTES_MAX) (d_createdAt data)
    (d_completed data).

Definition validateTimetableBlock (data : BlockDraft) : list ValidationError :=
  (titleErrors (k_title data)
   ++ match present (k_date data) with
      | None => [mkError "date" "Date is required"]
      | Some d =>
          if ExamStore.isDateOnly d then []
          else [mkError "date" "Invalid date format (use YYYY-MM-DD)"]
      end
   ++ match present (k_start data) with
      | None => [mkError "start" "Start time is required"]
      | Some t =>
          if Utils.isValidTime t then []
          else [mkError "start" "Invalid start time format (use HH:MM)"]
      end
   ++ match present (k_end data) with
      | Some t =>
          if Utils.isValidTime t then []
          else [mkError "end" "Invalid end time format (use HH:MM)"]
      | None => []
      end
   ++ match present (k_start data), present (k_end data) with
      | Some s, Some e =>
          if Utils.isValidTime s && Utils.isValidTime e
             && (Utils.minutesOfDay e <=? Utils.minutesOfDay s)
          then [mkError "end" "End time must be after start time"]
          else []
      | _, _ => []
      end
   ++ tagErrors (k_tag data))%list.

Definition sanitizeTimetableBlock (data : BlockDraft) : BlockDraft :=
  mkBlockDraft (k_id data) (sanitizeText (k_title data) TITLE_MAX)
    (k_date data) (k_start data) (k_end data) (sanitizeTag (k_tag data)).

End Validators.

End Validation.

(** Drafts as the forms give them. *)
Definition anyDate (_ : string) : bool := true.

Definition mathDraft : Validation.ExamDraft :=
  Validation.mkDraft None (Some "  <b>Math</b> ") (Some "2025-01-15")
    (Some "09:30") (Some "#FFF5B1") (Some "") None None.

Definition lunchDraft : Validation.BlockDraft :=
  Validation.mkBlockDraft None (Some "Lunch") (Some "2025-01-15")
    (Some "12:00") (Some "12:45") (Some "#FFF5B1").

(** ** The inputs on which the embedding of [parseInt] is exact *)

(** Every character is an ASCII character: the white space that
    [parseInt] skips is then the ASCII white space. *)
Fixpoint asciiOnly (s : string) : bool :=
  match s with
  | EmptyString => true
  | String c r => (nat_of_ascii c <? 128)%nat && asciiOnly r
  end.

(** An ASCII input whose integer, when it has one, is below 2^53 in
    absolute value: the number that [parseInt] returns is then that
    integer, with no rounding and no [Infinity]. *)
Definition plainInput (s : string) : Prop :=
  asciiOnly s = true
  /\ match Js.parseInt s with
     | Some n => Z.abs n < 2 ^ 53
     | None => True
     end.

Definition plainInputs (inp : SettingsInputs) : Prop :=
  plainInput (pWork inp) /\ plainInput (pShort inp)
  /\ plainInput (pLong inp) /\ plainInput (pEvery inp).


(** * Properties *)

(** ** The model on concrete inputs *)

Example parseInt_examples :
  Js.parseInt "25" = Some 25 /\ Js.parseInt "  -5" = Some (-5) /\
  Js.parseInt "12abc" = Some 12 /\ Js.parseInt "3.7" = Some 3 /\
  Js.parseInt "" = None /\ Js.parseInt "abc" = None /\
  Js.parseInt "0x1f" = Some 31 /\ Js.parseInt "-" = None /\
  Js.parseInt "0" = Some 0 /\ Js.parseInt "+7" = Some 7.
Proof. repeat split; reflexivity. Qed.

Example formatTime_examples :
  formatTime 1500000 = "00:25:00" /\ formatTime 0 = "00:00:00" /\
  formatTime 3723000 = "01:02:03" /\ formatTime 59999 = "00:00:59".
Proof. repeat split; reflexivity. Qed.

Example scenario_of_the_specification :
  phaseAndCount (run scenarioClock 2 firstMinute scenarioWorld)
  = Some (Short, 1, true)
  /\ phaseAndCount (run scenarioClock 2 secondMinute scenarioWorld)
     = Some (Work, 1, true)
  /\ phaseAndCount (run scenarioClock 2 thirdMinute scenarioWorld)
     = Some (Long, 2, true).
Proof. repeat split; vm_compute; reflexivity. Qed.

Example long_break_every_fourth_cycle :
  map (fun c => nextPhase (mkPomodoro 25 5 15 4 Work c)) [0; 1; 2; 3; 4]
  = [Short; Short; Short; Long; Short].
Proof. reflexivity. Qed.

Example full_store_rejects :
  fst (ExamStore.addExam noLocalDate ExamStore.asciiLower mathAgain fullStore)
  = ExamStore.Returned false.
Proof. vm_compute. reflexivity. Qed.

Example unreadable_stored_date_throws :
  fst (ExamStore.addExam noLocalDate ExamStore.asciiLower mathAgain
         (ExamStore.mkStore
            [ExamStore.mkExam "c3" "Physics" "soon" None "#fff5b1" None "" None;
             mathExam] []))
  = ExamStore.Thrown.
Proof. reflexivity. Qed.

(** ** Reset *)

(** C5. From any state, whatever the timer fields hold, [reset] gives the
    Idle state in phase work with no completed cycle, both timestamps
    cleared, a total duration of 0, and the configured work minutes on the
    display. *)
Theorem reset_gives_idle_work (w : World) :
  Idle (reset w)
  /\ phase (pomodoroState (reset w)) = Work
  /\ count (pomodoroState (reset w)) = 0
  /\ startTime (reset w) = None
  /\ targetTime (reset w) = None
  /\ totalDuration (reset w) = 0
  /\ currentSettings (reset w) = currentSettings w
  /\ displayText (reset w) = formatTime (work (pomodoroState w) * 60 * 1000).
Proof.
  destruct w as [[h|] tgt st tot ps disp mv eff sch nh thr rd];
    unfold Idle; cbn; repeat split; reflexivity.
Qed.

(** ** Manual phase switch *)

(** C10. [switchPhase] on the option verylong sets the phase to long and
    displays 30 minutes whatever the long-break minutes are; on work, short
    and long it displays the minutes configured for that phase. *)
Theorem switchPhase_displayed_duration (w : World) :
  (phase (pomodoroState (switchPhase MVeryLong w)) = Long
   /\ displayText (switchPhase MVeryLong w) = "00:30:00")
  /\ (phase (pomodoroState (switchPhase MWork w)) = Work
      /\ displayText (switchPhase MWork w)
         = formatTime (work (pomodoroState w) * 60 * 1000))
  /\ (phase (pomodoroState (switchPhase MShort w)) = Short
      /\ displayText (switchPhase MShort w)
         = formatTime (short (pomodoroState w) * 60 * 1000))
  /\ (phase (pomodoroState (switchPhase MLong w)) = Long
      /\ displayText (switchPhase MLong w)
         = formatTime (long (pomodoroState w) * 60 * 1000)).
Proof.
  destruct w as [[h|] tgt st tot ps disp mv eff sch nh thr rd];
    cbn; repeat split; reflexivity.
Qed.

(** ** Start while running *)

(** C8. While the timer is Running, [start] does nothing: the world after
    the call, the scheduled callbacks included, is the world before it. *)
Theorem start_while_running_is_noop
    (clock : nat -> Z) (tick : World -> option World) (w : World) :
  Running w -> start clock tick w = Some w.
Proof.
  unfold Running, start. destruct (timer w); [reflexivity | congruence].
Qed.

Lemma start_while_running_is_noop_witness :
  Running startedWorld
  /\ start (clockOf [1000; 1000; 1100])
       (tickPomodoro (clockOf [1000; 1000; 1100]) 2) startedWorld
     = Some startedWorld.
Proof.
  assert (H : Running startedWorld) by (unfold Running; cbn; discriminate).
  split; [exact H | exact (start_while_running_is_noop _ _ _ H)].
Defined.

(** ** Settings *)

Lemma digitValue_nonneg (c : ascii) (d : Z) :
  Js.digitValue c = Some d -> 0 <= d.
Proof.
  unfold Js.digitValue.
  repeat match goal with
         | |- context [if ?b then _ else _] => destruct b eqn:?
         end; intros H; inversion H; subst; lia.
Qed.

Lemma parseDigits_nonneg (radix : Z) (s : string) :
  0 <= radix ->
  forall (seen : bool) (acc n : Z),
    0 <= acc -> Js.parseDigits radix s seen acc = Some n -> 0 <= n.
Proof.
  intros Hr. induction s as [| c r IH]; intros seen acc n Hacc H; cbn in H.
  - destruct seen; inversion H; subst; assumption.
  - unfold Js.radixDigit in H.
    destruct (Js.digitValue c) as [d |] eqn:Hd.
    + destruct (d <? radix).
      * apply (IH true (acc * radix + d) n); [| exact H].
        apply digitValue_nonneg in Hd. nia.
      * destruct seen; inversion H; subst; assumption.
    + destruct seen; inversion H; subst; assumption.
Qed.

Lemma parseInt_nonneg (s : string) (n : Z) :
  hasMinusSign s = false -> Js.parseInt s = Some n -> 0 <= n.
Proof.
  unfold hasMinusSign, Js.parseInt.
  destruct (Js.stripSign (Js.trimStart s)) as [neg s1]; cbn.
  intros ->. destruct (Js.stripHexPrefix s1) as [radix s2] eqn:Hp.
  assert (Hr : 0 <= radix).
  { unfold Js.stripHexPrefix in Hp.
    repeat match type of Hp with
           | context [match ?x with _ => _ end] => destruct x
           end; inversion Hp; lia. }
  destruct (Js.parseDigits radix s2 false 0) as [m |] eqn:Hm; [| discriminate].
  intros H; inversion H; subst.
  apply (parseDigits_nonneg radix s2 Hr false 0 n); [lia | exact Hm].
Qed.

Lemma orDefault_normalised (s : string) (d : Z) :
  normalised s d (Js.orDefault (Js.parseInt s) d).
Proof.
  unfold normalised, Js.orDefault.
  destruct (Js.parseInt s) as [n |]; [| reflexivity].
  destruct (Z.eqb_spec n 0); split; intros; congruence.
Qed.

Lemma orDefault_nonzero (o : option Z) (d : Z) :
  d <> 0 -> Js.orDefault o d <> 0.
Proof.
  unfold Js.orDefault. destruct o as [n |]; [| trivial].
  destruct (Z.eqb_spec n 0); trivial.
Qed.

Lemma orDefault_positive (s : string) (d : Z) :
  0 < d -> hasMinusSign s = false -> 0 < Js.orDefault (Js.parseInt s) d.
Proof.
  intros Hd Hs. unfold Js.orDefault.
  destruct (Js.parseInt s) as [n |] eqn:Hn; [| exact Hd].
  apply (parseInt_nonneg s n Hs) in Hn.
  destruct (Z.eqb_spec n 0); lia.
Qed.

Lemma orDefault_bounded (s : string) (d : Z) :
  match Js.parseInt s with
  | Some n => Z.abs n < 2 ^ 53
  | None => True
  end ->
  Z.abs d < 2 ^ 53 -> Z.abs (Js.orDefault (Js.parseInt s) d) < 2 ^ 53.
Proof.
  unfold Js.orDefault. destruct (Js.parseInt s) as [n |]; [| trivial].
  destruct (Z.eqb_spec n 0); trivial.
Qed.

Lemma handleSettingsChange_settings (inp : SettingsInputs) (w : World) :
  currentSettings (handleSettingsChange inp w) = readSettings inp.
Proof.
  unfold handleSettingsChange, handleSettingsInput.
  generalize (readSettings inp); intros [a b c d].
  destruct w as [[h|] tgt st tot ps disp mv eff sch nh thr rd]; reflexivity.
Qed.

Lemma handleSettingsInput_settings (inp : SettingsInputs) (w : World) :
  currentSettings (handleSettingsInput inp w) = readSettings inp.
Proof.
  unfold handleSettingsChange, handleSettingsInput.
  generalize (readSettings inp); intros [a b c d].
  destruct w as [[h|] tgt st tot ps disp mv eff sch nh thr rd]; reflexivity.
Qed.

(** C3, as the code has it.  On inputs made of ASCII characters whose
    integers are below 2^53 in absolute value, where [parseInt] is exact,
    both settings handlers are total (they return a world and raise
    nothing) and store, for each of the four inputs, the default (25, 5,
    15, 4) when [parseInt] of the input is [NaN] or [0] and the parsed
    integer otherwise; the change handler hands the stored settings to the
    store.  No stored value is [0], and a field whose input carries no
    minus sign is positive. *)
Theorem settings_update_normalises (inp : SettingsInputs) (w : World) :
  plainInputs inp ->
  let stored := readSettings inp in
  currentSettings (handleSettingsChange inp w) = stored
  /\ currentSettings (handleSettingsInput inp w) = stored
  /\ In (SaveSettings stored) (effects (handleSettingsChange inp w))
  /\ (normalised (pWork inp) 25 (fs_work stored)
      /\ normalised (pShort inp) 5 (fs_short stored)
      /\ normalised (pLong inp) 15 (fs_long stored)
      /\ normalised (pEvery inp) 4 (fs_every stored))
  /\ (fs_work stored <> 0 /\ fs_short stored <> 0
      /\ fs_long stored <> 0 /\ fs_every stored <> 0)
  /\ (Z.abs (fs_work stored) < 2 ^ 53 /\ Z.abs (fs_short stored) < 2 ^ 53
      /\ Z.abs (fs_long stored) < 2 ^ 53 /\ Z.abs (fs_every stored) < 2 ^ 53)
  /\ (hasMinusSign (pWork inp) = false -> 0 < fs_work stored)
  /\ (hasMinusSign (pShort inp) = false -> 0 < fs_short stored)
  /\ (hasMinusSign (pLong inp) = false -> 0 < fs_long stored)
  /\ (hasMinusSign (pEvery inp) = false -> 0 < fs_every stored).
Proof.
  intros (Hw & Hs & Hl & He). cbv zeta.
  split; [apply handleSettingsChange_settings |].
  split; [apply handleSettingsInput_settings |].
  split.
  { unfold handleSettingsChange.
    generalize (readSettings inp); intros [a b c d].
    destruct w as [[h|] tgt st tot ps disp mv eff sch nh thr rd];
      cbn; auto. }
  split; [repeat split; apply orDefault_normalised |].
  split; [repeat split; apply orDefault_nonzero; cbn; lia |].
  split.
  { unfold readSettings, plainInput in *.
    cbn [fs_work fs_short fs_long fs_every DEFAULT_SETTINGS].
    repeat split; apply orDefault_bounded; try (cbn; lia); tauto. }
  repeat split; apply orDefault_positive; cbn; lia.
Qed.

Lemma settings_update_normalises_witness :
  plainInputs negativeWorkInputs
  /\ currentSettings (handleSettingsChange negativeWorkInputs freshWorld)
     = mkSettings (-5) 5 15 4.
Proof.
  assert (H : plainInputs negativeWorkInputs)
    by (repeat split; vm_compute; reflexivity).
  split; [exact H |].
  pose proof (settings_update_normalises negativeWorkInputs freshWorld H) as Hn.
  cbv zeta in Hn. destruct Hn as (Hc & _). exact Hc.
Defined.

(** C3 fails as stated: an input of -5 for the work minutes is stored as
    it is, so the stored settings are not all positive. *)
Lemma settings_update_keeps_negative :
  fs_work (currentSettings (handleSettingsChange negativeWorkInputs freshWorld)) = -5
  /\ ~ settingsPositive
         (currentSettings (handleSettingsChange negativeWorkInputs freshWorld)).
Proof.
  split; [reflexivity |].
  intros [H _]. vm_compute in H. discriminate H.
Qed.

(** ** Starting a phase *)

(** With no target time, [startPomodoro] begins the current phase at the
    next clock reading, schedules the periodic tick and runs a first tick on
    the resulting state. *)
Lemma startPomodoro_fresh
    (clock : nat -> Z) (tick : World -> option World) (w : World) :
  Js.truthy (targetTime w) = false ->
  exists w1,
    startPomodoro clock tick w = tick w1
    /\ timer w1 = Some (nextHandle w)
    /\ scheduled w1 = (nextHandle w, IntervalTick) :: scheduled w
    /\ startTime w1 = Some (clock (reads w))
    /\ totalDuration w1 = phaseMinutes w * 60 * 1000
    /\ targetTime w1 = Some (clock (reads w) + phaseMinutes w * 60 * 1000)
    /\ pomodoroState w1 = pomodoroState w
    /\ displayText w1 = displayText w
    /\ effects w1 = effects w
    /\ inThrottle w1 = inThrottle w
    /\ reads w1 = S (reads w).
Proof.
  intros H. unfold startPomodoro. rewrite H. cbn.
  eexists. split; [reflexivity |]. cbn. repeat split.
Qed.

Lemma completePhase_cleared (w : World) :
  targetTime (completePhase w) = None
  /\ startTime (completePhase w) = None
  /\ timer (completePhase w) = None
  /\ reads (completePhase w) = reads w
  /\ inThrottle (completePhase w) = inThrottle w.
Proof.
  destruct w as [[h|] tgt st tot [wk sh lg ev [| |] ct] disp mv eff sch nh thr rd];
    cbn; repeat split; reflexivity.
Qed.

Lemma completePhase_policy (w : World) :
  let ps := pomodoroState w in
  let ps' := pomodoroState (completePhase w) in
  currentSettings (completePhase w) = currentSettings w
  /\ match phase ps with
     | Work =>
         count ps' = count ps + 1
         /\ phase ps' =
            (if Js.remIsZero (count ps + 1) (every ps) then Long else Short)
     | Short | Long => count ps' = count ps /\ phase ps' = Work
     end.
Proof.
  destruct w as [[h|] tgt st tot [wk sh lg ev [| |] ct] disp mv eff sch nh thr rd];
    cbn; repeat split; reflexivity.
Qed.

(** ** Phase completion *)

Lemma remIsZero_spec (a b : Z) :
  Js.remIsZero a b = true <-> b <> 0 /\ Z.rem a b = 0.
Proof.
  unfold Js.remIsZero. destruct (Z.eqb_spec b 0) as [-> | Hb].
  - split; [discriminate | intros [H _]; contradiction].
  - rewrite Z.eqb_eq. tauto.
Qed.

(** C2. The completion handler applies the transition policy and then
    starts the next phase: the state on which the first tick of the next
    phase runs is Running.  After a work phase its count is the old count
    plus one, and its phase is long exactly when the new count modulo
    [every] is 0 (the remainder of JavaScript, which is [Z.rem]; by an
    [every] of 0 it is [NaN], never 0) and short exactly when it is not.
    After a short or a long break its phase is work and its count is
    unchanged.  [switchPhase] never changes the count. *)
Theorem phase_completion_policy
    (clock : nat -> Z) (tick : World -> option World) (w : World) :
  (exists w1,
     handlePomodoroPhaseComplete clock tick w = tick w1
     /\ Running w1
     /\ match phase (pomodoroState w) with
        | Work =>
            count (pomodoroState w1) = count (pomodoroState w) + 1
            /\ (phase (pomodoroState w1) = Long <->
                every (pomodoroState w) <> 0
                /\ Z.rem (count (pomodoroState w) + 1)
                     (every (pomodoroState w)) = 0)
            /\ (phase (pomodoroState w1) = Short <->
                ~ (every (pomodoroState w) <> 0
                   /\ Z.rem (count (pomodoroState w) + 1)
                        (every (pomodoroState w)) = 0))
        | Short | Long =>
            count (pomodoroState w1) = count (pomodoroState w)
            /\ phase (pomodoroState w1) = Work
        end)
  /\ (forall m, count (pomodoroState (switchPhase m w)) = count (pomodoroState w)).
Proof.
  split.
  - unfold handlePomodoroPhaseComplete.
    destruct (completePhase_cleared w) as (Ht & _).
    destruct (startPomodoro_fresh clock tick (completePhase w)) as
      (w1 & Hrun & Htimer & _ & _ & _ & _ & Hps & _).
    { rewrite Ht. reflexivity. }
    exists w1. split; [exact Hrun |].
    split; [unfold Running; rewrite Htimer; discriminate |].
    rewrite Hps.
    destruct (completePhase_policy w) as (_ & Hpol).
    destruct (phase (pomodoroState w)); [| exact Hpol | exact Hpol].
    destruct Hpol as (Hcount & Hphase).
    split; [exact Hcount |].
    rewrite Hphase.
    pose proof (remIsZero_spec (count (pomodoroState w) + 1)
                  (every (pomodoroState w))) as Hrem.
    destruct (Js.remIsZero (count (pomodoroState w) + 1)
                (every (pomodoroState w))).
    + assert (HP : every (pomodoroState w) <> 0
                   /\ Z.rem (count (pomodoroState w) + 1)
                        (every (pomodoroState w)) = 0)
        by (apply Hrem; reflexivity).
      split; split;
        [intros _; exact HP | reflexivity | discriminate
        | intros H; contradiction].
    + assert (HnP : ~ (every (pomodoroState w) <> 0
                      /\ Z.rem (count (pomodoroState w) + 1)
                           (every (pomodoroState w)) = 0))
        by (intros H; apply Hrem in H; discriminate H).
      split; split;
        [discriminate | intros H; contradiction | intros _; exact HnP
        | reflexivity].
  - intros m.
    destruct w as [[h|] tgt st tot ps disp mv eff sch nh thr rd];
      destruct m; reflexivity.
Qed.

(** ** Settings while running *)

(** C7. A settings update made while the timer is Running leaves the run
    as it is: the handle of the periodic tick, the scheduled callbacks, the
    target and start timestamps, the total duration and the display keep
    their values.  The next phase that begins reads the new durations: its
    total duration is the updated minutes of its phase times 60000. *)
Theorem settings_update_keeps_running_countdown
    (inp : SettingsInputs) (w : World) :
  Running w ->
  (forall w',
     w' = handleSettingsChange inp w \/ w' = handleSettingsInput inp w ->
     timer w' = timer w
     /\ scheduled w' = scheduled w
     /\ targetTime w' = targetTime w
     /\ startTime w' = startTime w
     /\ totalDuration w' = totalDuration w
     /\ displayText w' = displayText w
     /\ (forall now, remainingAt now w' = remainingAt now w))
  /\ (forall clock tick,
        exists w1,
          handlePomodoroPhaseComplete clock tick (handleSettingsChange inp w)
          = tick w1
          /\ currentSettings w1 = readSettings inp
          /\ totalDuration w1 = phaseMinutes w1 * 60 * 1000
          /\ targetTime w1
             = Some (clock (reads w) + phaseMinutes w1 * 60 * 1000)).
Proof.
  intros Hrun. split.
  - intros w' Hw'.
    unfold Running in Hrun.
    unfold handleSettingsChange, handleSettingsInput in Hw'.
    revert Hw'. generalize (readSettings inp). intros [a b c d] Hw'.
    destruct w as [[h|] tgt st tot ps disp mv eff sch nh thr rd];
      [| cbn in Hrun; congruence].
    destruct Hw' as [-> | ->]; cbn; repeat split; reflexivity.
  - intros clock tick. unfold handlePomodoroPhaseComplete.
    set (w0 := handleSettingsChange inp w).
    destruct (completePhase_cleared w0) as (Ht & _ & _ & Hrd & _).
    destruct (startPomodoro_fresh clock tick (completePhase w0)) as
      (w1 & Hrun1 & _ & _ & _ & Htot & Htgt & Hps & _).
    { rewrite Ht. reflexivity. }
    exists w1. split; [exact Hrun1 |].
    assert (Hpm : phaseMinutes w1 = phaseMinutes (completePhase w0))
      by (unfold phaseMinutes; rewrite Hps; reflexivity).
    assert (Hrd0 : reads w0 = reads w).
    { unfold w0, handleSettingsChange.
      generalize (readSettings inp). intros [a b c d].
      destruct w as [[h|] tgt st tot ps disp mv eff sch nh thr rd]; reflexivity. }
    split.
    { unfold currentSettings. rewrite Hps.
      destruct (completePhase_policy w0) as (Hs & _).
      unfold currentSettings in Hs. rewrite Hs.
      apply handleSettingsChange_settings. }
    rewrite Hpm, Htot, Htgt, Hrd, Hrd0. split; reflexivity.
Qed.

Lemma settings_update_keeps_running_countdown_witness :
  Running startedWorld
  /\ targetTime (handleSettingsChange negativeWorkInputs startedWorld)
     = targetTime startedWorld.
Proof.
  assert (H : Running startedWorld) by (unfold Running; cbn; discriminate).
  split; [exact H |].
  destruct (settings_update_keeps_running_countdown negativeWorkInputs
              startedWorld H) as (Hkeep & _).
  destruct (Hkeep (handleSettingsChange negativeWorkInputs startedWorld)
              (or_introl eq_refl)) as (_ & _ & Ht & _).
  exact Ht.
Defined.

(** ** The timestamps in reachable states *)

(** Reduce the setters under the projections, and nothing else. *)
Ltac fields :=
  cbn [work short long every phase count
       timer targetTime startTime totalDuration pomodoroState displayText
       modeValue effects scheduled nextHandle inThrottle reads
       set_timer set_targetTime set_startTime set_totalDuration
       set_pomodoroState set_displayText set_modeValue set_effects
       set_scheduled set_nextHandle set_inThrottle set_reads
       set_phase set_count set_settings emit updateDisplay renderCycles
       playNotification saveSettings clearRun armThrottle schedule
       unschedule dateNow fst snd] in *.

Ltac solve_paired :=
  unfold timestampsPaired in *; fields; intuition congruence.

Lemma startPomodoro_paired (clock : nat -> Z) (tick : World -> option World) :
  preserves timestampsPaired tick ->
  preserves timestampsPaired (startPomodoro clock tick).
Proof.
  intros Htick w w' Hw H.
  unfold startPomodoro, schedule, dateNow in H.
  destruct w as [tm [t|] [s|] tot ps disp mv eff sch nh thr rd]; cbn in H;
    try (destruct (t =? 0)); cbn in H;
    try (destruct (0 <? t - clock rd)); cbn in H;
    (eapply Htick; [| exact H]); clear H Htick; solve_paired.
Qed.

Lemma completePhase_paired (w : World) : timestampsPaired (completePhase w).
Proof.
  destruct (completePhase_cleared w) as (Ht & Hs & Htm & _).
  unfold timestampsPaired. rewrite Ht, Hs, Htm. split; [tauto | congruence].
Qed.

Lemma tickBody_paired (clock : nat -> Z) (tick : World -> option World) :
  preserves timestampsPaired tick ->
  preserves timestampsPaired (tickBody clock tick).
Proof.
  intros Htick w w' Hw H. unfold tickBody, dateNow in H.
  destruct (negb (Js.truthy (targetTime w)) || negb (Js.truthy (startTime w))).
  - inversion H; subst; exact Hw.
  - cbv beta iota zeta in H.
    match type of H with
    | (if ?c then _ else _) = _ => destruct c
    end.
    + unfold handlePomodoroPhaseComplete in H.
      apply (startPomodoro_paired clock tick Htick _ w' (completePhase_paired _) H).
    + injection H as <-.
      destruct w as [tm tgt st tot [wk sh lg ev [| |] ct] disp mv eff sch nh thr rd];
        solve_paired.
Qed.

Lemma throttle_paired (fn : World -> option World) :
  preserves timestampsPaired fn -> preserves timestampsPaired (throttle fn).
Proof.
  intros Hfn w w' Hw H. unfold throttle in H.
  destruct (inThrottle w); [inversion H; subst; exact Hw |].
  destruct (fn w) as [w1 |] eqn:Hf; [| discriminate].
  inversion H; subst. apply (Hfn w w1 Hw) in Hf.
  destruct w1; solve_paired.
Qed.

Lemma tickPomodoro_paired (clock : nat -> Z) (fuel : nat) :
  preserves timestampsPaired (tickPomodoro clock fuel).
Proof.
  induction fuel as [| f IH]; intros w w' Hw H; cbn in H; [discriminate |].
  exact (throttle_paired _ (tickBody_paired clock _ IH) w w' Hw H).
Qed.

Lemma handle_paired (clock : nat -> Z) (fuel : nat) (e : Event) :
  preserves timestampsPaired (handle clock fuel e).
Proof.
  intros w w' Hw H. destruct e; cbn in H.
  - unfold start in H. destruct (timer w) eqn:Ht.
    + inversion H; subst; exact Hw.
    + exact (startPomodoro_paired clock _ (tickPomodoro_paired clock fuel) w w' Hw H).
  - inversion H; subst. clear H.
    destruct w as [[h|] tgt st tot ps disp mv eff sch nh thr rd];
      destruct Hw as [Hp Hr]; split; cbn in *; (tauto || congruence).
  - inversion H; subst. clear H.
    destruct w as [[h|] tgt st tot ps disp mv eff sch nh thr rd];
      split; cbn; (tauto || congruence).
  - inversion H; subst. clear H.
    destruct w as [[h|] tgt st tot ps disp mv eff sch nh thr rd];
      split; cbn; (tauto || congruence).
  - inversion H; subst. clear H.
    destruct w as [[h|] tgt st tot ps disp mv eff sch nh thr rd];
      destruct m; split; cbn; (tauto || congruence).
  - inversion H; subst. clear H.
    unfold handleSettingsInput. generalize (readSettings inp). intros [a b c d].
    destruct w as [[h|] tgt st tot ps disp mv eff sch nh thr rd]; exact Hw.
  - inversion H; subst. clear H.
    unfold handleSettingsChange. generalize (readSettings inp). intros [a b c d].
    destruct w as [[h|] tgt st tot ps disp mv eff sch nh thr rd]; exact Hw.
  - destruct (existsb _ _); [| discriminate].
    exact (tickPomodoro_paired clock fuel w w' Hw H).
  - destruct (existsb _ _); [| discriminate].
    inversion H; subst. destruct w; exact Hw.
Qed.

Lemma run_paired (clock : nat -> Z) (fuel : nat) (es : list Event) :
  preserves timestampsPaired (run clock fuel es).
Proof.
  induction es as [| e r IH]; intros w w' Hw H; cbn in H.
  - inversion H; subst; exact Hw.
  - destruct (handle clock fuel e w) as [w1 |] eqn:He; [| discriminate].
    exact (IH w1 w' (handle_paired clock fuel e w w1 Hw He) H).
Qed.

Lemma init_paired (saved : option FocusSettings) :
  timestampsPaired (init saved constructed).
Proof.
  destruct saved as [[a b c d] |]; split; cbn; (tauto || congruence).
Qed.

Lemma pausedWorld_reachable : reachable pauseClock pausedWorld.
Proof.
  exists None, 2%nat, [EStart; EPause]. vm_compute. reflexivity.
Qed.

(** C6, as the code has it.  In every state that a run of start, pause,
    reset, phase switch, settings update, tick and throttle release reaches,
    the start and target timestamps are both set or both unset, and both
    are set while the timer is Running.  [pause] leaves them as they are, so
    they stay set in the Paused state; [reset] and [switchPhase] clear
    them. *)
Theorem timestamps_paired_when_reachable (clock : nat -> Z) (w : World) :
  reachable clock w ->
  (targetTime w = None <-> startTime w = None)
  /\ (Running w -> targetTime w <> None /\ startTime w <> None)
  /\ (targetTime (pause w) = targetTime w /\ startTime (pause w) = startTime w)
  /\ (forall m, targetTime (switchPhase m w) = None
                /\ startTime (switchPhase m w) = None)
  /\ (targetTime (reset w) = None /\ startTime (reset w) = None).
Proof.
  intros (saved & fuel & es & Hrun).
  destruct (run_paired clock fuel es _ w (init_paired saved) Hrun) as [Hp Hr].
  split; [exact Hp |].
  split; [intros Hw; split; [exact (Hr Hw) | intros Hs; apply (Hr Hw), Hp, Hs] |].
  clear. destruct w as [[h|] tgt st tot ps disp mv eff sch nh thr rd];
    repeat split; try destruct m; reflexivity.
Qed.

Lemma timestamps_paired_when_reachable_witness :
  reachable pauseClock pausedWorld
  /\ (targetTime pausedWorld = None <-> startTime pausedWorld = None).
Proof.
  split; [exact pausedWorld_reachable |].
  exact (proj1 (timestamps_paired_when_reachable pauseClock pausedWorld
                  pausedWorld_reachable)).
Defined.

(** C6 fails as stated: after start and pause the timer is not Running,
    yet both timestamps are still set. *)
Lemma paused_timer_keeps_timestamps :
  reachable pauseClock pausedWorld
  /\ Paused pausedWorld
  /\ targetTime pausedWorld = Some 1501000
  /\ startTime pausedWorld = Some 1000
  /\ ~ (forall clock w, reachable clock w ->
          (targetTime w <> None <-> Running w)).
Proof.
  split; [exact pausedWorld_reachable |].
  split; [split; [reflexivity | discriminate] |].
  split; [reflexivity |].
  split; [reflexivity |].
  intros H.
  destruct (H pauseClock pausedWorld pausedWorld_reachable) as [H1 _].
  apply H1; [discriminate | reflexivity].
Qed.

(** ** Ticks *)

Lemma truthy_Some (z : Z) : z <> 0 -> Js.truthy (Some z) = true.
Proof. intros H. cbn. destruct (Z.eqb_spec z 0); [contradiction | reflexivity]. Qed.

Lemma startPomodoro_running (clock : nat -> Z) (tick : World -> option World) :
  preserves Running tick ->
  forall w w', startPomodoro clock tick w = Some w' -> Running w'.
Proof.
  intros Htick w w' H. unfold startPomodoro, schedule in H.
  cbv beta iota zeta in H.
  eapply Htick; [| exact H]. unfold Running. fields. discriminate.
Qed.

Lemma tickBody_running (clock : nat -> Z) (tick : World -> option World) :
  preserves Running tick -> preserves Running (tickBody clock tick).
Proof.
  intros Htick w w' Hw H. unfold tickBody, dateNow in H.
  destruct (negb (Js.truthy (targetTime w)) || negb (Js.truthy (startTime w))).
  - injection H as <-. exact Hw.
  - cbv beta iota zeta in H.
    match type of H with
    | (if ?c then _ else _) = _ => destruct c
    end.
    + unfold handlePomodoroPhaseComplete in H.
      exact (startPomodoro_running clock tick Htick _ w' H).
    + injection H as <-. unfold Running in *.
      destruct w as [tm tgt st tot [wk sh lg ev [| |] ct] disp mv eff sch nh thr rd];
        fields; exact Hw.
Qed.

Lemma throttle_running (fn : World -> option World) :
  preserves Running fn -> preserves Running (throttle fn).
Proof.
  intros Hfn w w' Hw H. unfold throttle in H.
  destruct (inThrottle w); [injection H as <-; exact Hw |].
  destruct (fn w) as [w1 |] eqn:Hf; [| discriminate].
  injection H as <-. apply (Hfn w w1 Hw) in Hf.
  unfold Running in *. fields. exact Hf.
Qed.

(** A tick never stops the timer: a Running timer is Running after it, also
    across a phase boundary. *)
Lemma tickPomodoro_running (clock : nat -> Z) (fuel : nat) :
  preserves Running (tickPomodoro clock fuel).
Proof.
  induction fuel as [| f IH]; intros w w' Hw H; cbn in H; [discriminate |].
  exact (throttle_running _ (tickBody_running clock _ IH) w w' Hw H).
Qed.

(** A tick on a world whose throttle is engaged does nothing. *)
Lemma tickPomodoro_throttled (clock : nat -> Z) (fuel : nat) (w : World) :
  inThrottle w = true -> tickPomodoro clock (S fuel) w = Some w.
Proof. intros H. cbn. unfold throttle. rewrite H. reflexivity. Qed.

(** A tick that the throttle lets through, before the target time. *)
Lemma tickPomodoro_before_target
    (clock : nat -> Z) (fuel : nat) (w : World) (tgt st : Z) :
  targetTime w = Some tgt -> tgt <> 0 ->
  startTime w = Some st -> st <> 0 ->
  inThrottle w = false ->
  0 < tgt - clock (reads w) ->
  exists w',
    tickPomodoro clock (S fuel) w = Some w'
    /\ displayText w' = formatTime (tgt - clock (reads w))
    /\ effects w'
       = (growthPushed w (Js.min1Div (clock (reads w) - st) (totalDuration w))
          ++ effects w)%list
    /\ timer w' = timer w
    /\ targetTime w' = Some tgt
    /\ startTime w' = Some st
    /\ totalDuration w' = totalDuration w
    /\ pomodoroState w' = pomodoroState w
    /\ inThrottle w' = true
    /\ reads w' = S (reads w).
Proof.
  intros Htgt Ht0 Hst Hs0 Hthr Hlive.
  cbn [tickPomodoro]. unfold throttle. rewrite Hthr.
  unfold tickBody, dateNow. rewrite Htgt, Hst.
  rewrite (truthy_Some tgt Ht0), (truthy_Some st Hs0).
  cbv beta iota zeta. cbn [negb orb].
  rewrite Z.max_r by lia.
  destruct (Z.leb_spec (tgt - clock (reads w)) 0) as [Hle | _]; [lia |].
  eexists. split; [reflexivity |].
  unfold growthPushed.
  destruct w as [tm tgt0 st0 tot [wk sh lg ev [| |] ct] disp mv eff sch nh thr rd];
    fields; subst; repeat split; reflexivity.
Qed.

Lemma tickPomodoro_S (clock : nat -> Z) (fuel : nat) (w : World) :
  tickPomodoro clock (S fuel) w
  = throttle (tickBody clock (tickPomodoro clock fuel)) w.
Proof. reflexivity. Qed.

(** A tick that the throttle lets through while a timestamp is unset (or
    is [0]) only arms the throttle. *)
Lemma tickPomodoro_unset (clock : nat -> Z) (fuel : nat) (w : World) :
  Js.truthy (targetTime w) = false \/ Js.truthy (startTime w) = false ->
  inThrottle w = false ->
  tickPomodoro clock (S fuel) w = Some (armThrottle w).
Proof.
  intros H Hthr. rewrite tickPomodoro_S. unfold throttle. rewrite Hthr.
  unfold tickBody.
  destruct H as [-> | ->]; cbn [negb orb]; [reflexivity |].
  rewrite orb_true_r. reflexivity.
Qed.

Lemma completePhase_outputs (w : World) :
  displayText (completePhase w)
  = formatTime (phaseMinutes (completePhase w) * 60 * 1000)
  /\ modeValue (completePhase w)
     = modeOfPhase (phase (pomodoroState (completePhase w)))
  /\ In PlayNotification (effects (completePhase w))
  /\ (phase (pomodoroState w) = Work -> In CompleteTree (effects (completePhase w)))
  /\ incl (effects w) (effects (completePhase w)).
Proof.
  destruct w as [[h|] tgt st tot [wk sh lg ev [| |] ct] disp mv eff sch nh thr rd];
    unfold completePhase, pause, getCurrentPhaseDuration, phaseMinutes; fields;
    (split; [reflexivity |]); (split; [reflexivity |]);
    (split; [simpl; tauto |]); (split; [simpl; intros; try discriminate; tauto |]);
    intros e He; simpl; tauto.
Qed.

(** The completion handler hands to the next tick a Running timer in the
    next phase, started at the next clock reading for the minutes of that
    phase. *)
Lemma handlePomodoroPhaseComplete_restarts
    (clock : nat -> Z) (tick : World -> option World) (w : World) :
  exists w1,
    handlePomodoroPhaseComplete clock tick w = tick w1
    /\ Running w1
    /\ phase (pomodoroState w1) = nextPhase (pomodoroState w)
    /\ count (pomodoroState w1) = nextCount (pomodoroState w)
    /\ currentSettings w1 = currentSettings w
    /\ startTime w1 = Some (clock (reads w))
    /\ totalDuration w1 = phaseMinutes w1 * 60 * 1000
    /\ targetTime w1 = Some (clock (reads w) + phaseMinutes w1 * 60 * 1000)
    /\ displayText w1 = formatTime (phaseMinutes w1 * 60 * 1000)
    /\ In PlayNotification (effects w1)
    /\ incl (effects w) (effects w1)
    /\ inThrottle w1 = inThrottle w
    /\ reads w1 = S (reads w).
Proof.
  unfold handlePomodoroPhaseComplete.
  destruct (completePhase_cleared w) as (Ht & _ & _ & Hrd & Hthr).
  destruct (completePhase_outputs w) as (Hdisp & _ & Hplay & _ & Hincl).
  destruct (completePhase_policy w) as (Hset & Hpol).
  destruct (startPomodoro_fresh clock tick (completePhase w)) as
    (w1 & Hrun & Htimer & _ & Hst & Htot & Htgt & Hps & Hd & Heff & Hth & Hr).
  { rewrite Ht. reflexivity. }
  assert (Hpm : phaseMinutes w1 = phaseMinutes (completePhase w))
    by (unfold phaseMinutes; rewrite Hps; reflexivity).
  exists w1. split; [exact Hrun |].
  split; [unfold Running; rewrite Htimer; discriminate |].
  rewrite Hpm, Hps, Hst, Htot, Htgt, Hd, Heff, Hth, Hr, Hrd, Hthr.
  unfold currentSettings in *. rewrite Hps.
  unfold nextPhase, nextCount.
  repeat split; try assumption; try reflexivity;
    destruct (phase (pomodoroState w)); tauto.
Qed.

(** C4, as the code has it.  A tick on a Running timer that the throttle
    lets through reads the clock once, computes the remaining time
    [max(0, target - now)] and the progress [min(1, (now - start) / total)],
    shows the remaining time and, in the work phase only, pushes the
    progress to the forest.  Before the target time nothing else changes.
    At or after it, the completion handler runs and restarts the timer at
    once in the next phase: the first tick of that phase runs inside the
    same call, the timer is Running in every outcome, and the call returns
    as soon as the new countdown has not already run out at that tick. *)
Theorem tick_pushes_and_completes
    (clock : nat -> Z) (fuel : nat) (w : World) (tgt st : Z) :
  Running w ->
  targetTime w = Some tgt -> tgt <> 0 ->
  startTime w = Some st -> st <> 0 ->
  inThrottle w = false ->
  let now := clock (reads w) in
  let remaining := Z.max 0 (tgt - now) in
  let progress := Js.min1Div (now - st) (totalDuration w) in
  (totalDuration w <> 0 ->
   progress
   = Js.PRatio (Qmin 1 (inject_Z (now - st) / inject_Z (totalDuration w))))
  /\ (0 < remaining ->
      exists w',
        tickPomodoro clock (S fuel) w = Some w'
        /\ Running w'
        /\ displayText w' = formatTime remaining
        /\ effects w' = (growthPushed w progress ++ effects w)%list
        /\ targetTime w' = Some tgt
        /\ startTime w' = Some st
        /\ totalDuration w' = totalDuration w
        /\ pomodoroState w' = pomodoroState w)
  /\ (remaining <= 0 ->
      exists w1,
        tickPomodoro clock (S (S fuel)) w
        = option_map armThrottle (tickPomodoro clock (S fuel) w1)
        /\ Running w1
        /\ phase (pomodoroState w1) = nextPhase (pomodoroState w)
        /\ count (pomodoroState w1) = nextCount (pomodoroState w)
        /\ startTime w1 = Some (clock (S (reads w)))
        /\ targetTime w1
           = Some (clock (S (reads w)) + phaseMinutes w1 * 60 * 1000)
        /\ totalDuration w1 = phaseMinutes w1 * 60 * 1000
        /\ displayText w1 = formatTime (phaseMinutes w1 * 60 * 1000)
        /\ In PlayNotification (effects w1)
        /\ incl (growthPushed w progress ++ effects w)%list (effects w1)
        /\ (forall w', tickPomodoro clock (S (S fuel)) w = Some w' -> Running w')
        /\ (clock (S (S (reads w)))
            < clock (S (reads w)) + phaseMinutes w1 * 60 * 1000 ->
            exists w',
              tickPomodoro clock (S (S fuel)) w = Some w'
              /\ Running w'
              /\ pomodoroState w' = pomodoroState w1
              /\ targetTime w' = targetTime w1
              /\ startTime w' = startTime w1)).
Proof.
  intros Hrun Htgt Ht0 Hst Hs0 Hthr. cbv zeta.
  split.
  { intros Htot. unfold Js.min1Div.
    destruct (Z.eqb_spec (totalDuration w) 0); [contradiction | reflexivity]. }
  split.
  { intros Hpos.
    assert (Hlive : 0 < tgt - clock (reads w)) by lia.
    destruct (tickPomodoro_before_target clock fuel w tgt st
                Htgt Ht0 Hst Hs0 Hthr Hlive)
      as (w' & Heq & Hd & He & Htm & Ht & Hs & Htot & Hps & _).
    exists w'. rewrite Z.max_r by lia.
    unfold Running in *. rewrite Htm.
    repeat split; assumption. }
  intros Hexp.
  assert (Hdead : tgt - clock (reads w) <= 0) by lia.
  assert (Hstays : forall w',
             tickPomodoro clock (S (S fuel)) w = Some w' -> Running w')
    by (intros w'; apply tickPomodoro_running; exact Hrun).
  revert Hstays.
  rewrite (tickPomodoro_S clock (S fuel) w). unfold throttle. rewrite Hthr.
  unfold tickBody, dateNow. rewrite Htgt, Hst.
  rewrite (truthy_Some tgt Ht0), (truthy_Some st Hs0).
  cbv beta iota zeta. cbn [negb orb].
  rewrite Z.max_l by lia. change (0 <=? 0) with true. cbv iota.
  match goal with
  | |- context [handlePomodoroPhaseComplete ?c ?t ?x] =>
      destruct (handlePomodoroPhaseComplete_restarts c t x)
        as (w1 & Heq & Hrun1 & Hph & Hct & _ & Hst1 & Htot1 & Htgt1 & Hd1
            & Hplay & Hincl & Hthr1 & Hrd1);
      rewrite Heq; clear Heq
  end.
  intros Hstays. exists w1.
  split; [reflexivity |].
  split; [exact Hrun1 |].
  assert (Hfacts :
    phase (pomodoroState w1) = nextPhase (pomodoroState w)
    /\ count (pomodoroState w1) = nextCount (pomodoroState w)
    /\ startTime w1 = Some (clock (S (reads w)))
    /\ targetTime w1 = Some (clock (S (reads w)) + phaseMinutes w1 * 60 * 1000)
    /\ incl (growthPushed w
               (Js.min1Div (clock (reads w) - st) (totalDuration w))
             ++ effects w)%list (effects w1)
    /\ inThrottle w1 = false
    /\ reads w1 = S (S (reads w))).
  { clear Hstays. unfold growthPushed.
    destruct w as [tm tgt0 st0 tot [wk sh lg ev [| |] ct] disp mv eff sch nh thr rd];
      fields; subst; repeat split; assumption. }
  destruct Hfacts as (Hph' & Hct' & Hst' & Htgt' & Hincl' & Hthr' & Hrd').
  repeat (split; [assumption |]).
  intros Hnext.
  destruct (Z.eq_dec (clock (S (reads w)) + phaseMinutes w1 * 60 * 1000) 0)
    as [Hz | Hnz].
  { rewrite (tickPomodoro_unset clock fuel w1); [| left; rewrite Htgt', Hz; reflexivity | exact Hthr'].
    eexists. split; [reflexivity |].
    unfold Running in *. fields. repeat split; try reflexivity. exact Hrun1. }
  destruct (Z.eq_dec (clock (S (reads w))) 0) as [Hsz | Hsnz].
  { rewrite (tickPomodoro_unset clock fuel w1); [| right; rewrite Hst', Hsz; reflexivity | exact Hthr'].
    eexists. split; [reflexivity |].
    unfold Running in *. fields. repeat split; try reflexivity. exact Hrun1. }
  destruct (tickPomodoro_before_target clock fuel w1 _ _
              Htgt' Hnz Hst' Hsnz Hthr')
    as (w' & Heq & _ & _ & Htm & Ht & Hs & _ & Hps & _).
  { rewrite Hrd'. lia. }
  rewrite Heq. eexists. split; [reflexivity |].
  unfold Running in *. fields. rewrite Htm, Ht, Hs, Hps, Htgt', Hst'.
  repeat split; try reflexivity. exact Hrun1.
Qed.

Lemma tick_pushes_and_completes_witness :
  Running releasedWorld
  /\ inThrottle releasedWorld = false
  /\ exists w',
       tickPomodoro tickClock 1 releasedWorld = Some w'
       /\ displayText w' = formatTime (Z.max 0 (1501000 - 1100)).
Proof.
  assert (H : Running releasedWorld) by (unfold Running; cbn; discriminate).
  split; [exact H |]. split; [reflexivity |].
  destruct (tick_pushes_and_completes tickClock 0 releasedWorld 1501000 1000
              H eq_refl ltac:(discriminate) eq_refl ltac:(discriminate) eq_refl)
    as (_ & Hlive & _).
  destruct (Hlive ltac:(vm_compute; reflexivity)) as (w' & Heq & _ & Hd & _).
  exists w'. split; [exact Heq | exact Hd].
Defined.

Lemma startedWorld_reachable : reachable tickClock startedWorld.
Proof.
  exists None, 2%nat, [EStart]. vm_compute. reflexivity.
Qed.

(** C4 fails as stated: the first firing of the interval after a start
    finds the throttle engaged and does nothing, although the remaining
    time has changed. *)
Lemma throttled_tick_pushes_nothing :
  reachable tickClock startedWorld
  /\ Running startedWorld
  /\ handle tickClock 2 (EInterval 1) startedWorld = Some startedWorld
  /\ displayText startedWorld = "00:25:00"
  /\ formatTime (remainingAt (tickClock (reads startedWorld)) startedWorld)
     = "00:24:59".
Proof.
  split; [exact startedWorld_reachable |].
  split; [unfold Running; cbn; discriminate |].
  repeat split; vm_compute; reflexivity.
Qed.

(** ** Pause and resume *)

(** Resuming reads the clock twice: the remaining time is the target minus
    the first reading, and the new target is the second reading plus that.
    The target of a resumed run therefore moves by the time between the two
    readings, not by the time spent paused. *)
Lemma startPomodoro_resume
    (clock : nat -> Z) (tick : World -> option World) (w : World) (t : Z) :
  targetTime w = Some t -> t <> 0 ->
  0 < t - clock (reads w) ->
  exists w1,
    startPomodoro clock tick w = tick w1
    /\ Running w1
    /\ startTime w1 = Some (clock (S (reads w)))
    /\ totalDuration w1 = t - clock (reads w)
    /\ targetTime w1 = Some (clock (S (reads w)) + (t - clock (reads w)))
    /\ pomodoroState w1 = pomodoroState w.
Proof.
  intros Ht Ht0 Hlive. unfold startPomodoro, dateNow, schedule.
  rewrite Ht, (truthy_Some t Ht0). cbv beta iota zeta. cbn [negb].
  destruct (Z.ltb_spec 0 (t - clock (reads w))) as [_ | Hle]; [| lia].
  eexists. split; [reflexivity |].
  unfold Running. fields. repeat split. discriminate.
Qed.

(** C1, on the code.  A fresh timer of 25 minutes is started at instant
    1000 and paused; at instant 2000 it has 1499000 ms left.  Resumed at
    instant 62000 it still aims at the target 1501000 of the first start,
    so 1439000 ms are left: the minute spent paused is gone. *)
Theorem pause_resume_loses_paused_time :
  run pauseClock 2 [EStart; EPause] freshWorld = Some pausedWorld
  /\ Paused pausedWorld
  /\ remainingAt 2000 pausedWorld = 1499000
  /\ exists w,
       run pauseClock 2 [EStart; EPause; EStart] freshWorld = Some w
       /\ Running w
       /\ startTime w = Some 62000
       /\ targetTime w = Some 1501000
       /\ remainingAt 62000 w = 1439000
       /\ remainingAt 2000 pausedWorld - remainingAt 62000 w = 60000.
Proof.
  split; [vm_compute; reflexivity |].
  split; [split; [reflexivity | discriminate] |].
  split; [reflexivity |].
  eexists. split; [vm_compute; reflexivity |].
  unfold Running, remainingAt. cbn.
  repeat split; try reflexivity. discriminate.
Qed.

(** ** The exam store *)

Section AddExamFacts.

Variable localDate : string -> option string.
Variable toLowerCase : string -> string.

Let extract := ExamStore.extractDateString localDate.
Let sameAs := ExamStore.sameExam localDate toLowerCase.

Lemma some_defined (newTitle d : string) (l : list ExamStore.Exam) :
  Forall (fun e => extract (ExamStore.date e) <> None) l ->
  ExamStore.some (sameAs newTitle d) l <> None.
Proof.
  induction 1 as [| e r He _ IH]; cbn; [discriminate |].
  unfold sameAs, ExamStore.sameExam. fold extract.
  destruct (extract (ExamStore.date e)) as [d0 |]; [| contradiction].
  match goal with |- context [if ?b then _ else _] => destruct b end;
    [discriminate | exact IH].
Qed.



End AddExamFacts.



(** * Further properties of the focus timer *)

(** ** The shape of a tick *)

Lemma startPomodoro_begin
    (clock : nat -> Z) (tick : World -> option World) (w : World) :
  Js.truthy (targetTime w) = false ->
  startPomodoro clock tick w = tick (beginPhase clock w).
Proof.
  intros H. unfold startPomodoro, beginPhase, dateNow, schedule. rewrite H.
  reflexivity.
Qed.

Lemma tickBody_steps
    (clock : nat -> Z) (tick : World -> option World) (w : World) :
  tickBody clock tick w
  = if negb (Js.truthy (targetTime w)) || negb (Js.truthy (startTime w))
    then Some w
    else if expiredAt clock w
         then tick (beginPhase clock (completePhase (tickPush clock w)))
         else Some (tickPush clock w).
Proof.
  unfold tickBody, dateNow, expiredAt.
  destruct (negb (Js.truthy (targetTime w)) || negb (Js.truthy (startTime w)));
    [reflexivity |].
  cbv beta iota zeta.
  match goal with |- (if ?c then _ else _) = _ => destruct c end;
    [| reflexivity].
  unfold handlePomodoroPhaseComplete.
  apply startPomodoro_begin.
  match goal with
  | |- Js.truthy (targetTime (completePhase ?x)) = false =>
      destruct (completePhase_cleared x) as (Ht & _); rewrite Ht; reflexivity
  end.
Qed.

(** A property that the three steps of a tick keep is kept by a tick,
    however many phases complete inside it. *)
Lemma tickPomodoro_preserves (P : World -> Prop) (clock : nat -> Z) :
  (forall w, P w -> P (armThrottle w)) ->
  (forall w, P w -> P (tickPush clock w)) ->
  (forall w, P w -> P (beginPhase clock (completePhase w))) ->
  forall fuel, preserves P (tickPomodoro clock fuel).
Proof.
  intros Harm Hpush Hnext.
  induction fuel as [| f IH]; intros w w' Hw H; [discriminate H |].
  rewrite tickPomodoro_S in H. unfold throttle in H.
  destruct (inThrottle w); [injection H as <-; exact Hw |].
  rewrite tickBody_steps in H.
  destruct (negb (Js.truthy (targetTime w)) || negb (Js.truthy (startTime w))).
  - injection H as <-. apply Harm, Hw.
  - destruct (expiredAt clock w).
    + destruct (tickPomodoro clock f _) as [w1 |] eqn:Hf; [| discriminate H].
      injection H as <-. apply Harm.
      apply (IH _ w1 (Hnext _ (Hpush _ Hw)) Hf).
    + injection H as <-. apply Harm, Hpush, Hw.
Qed.

(** ** One periodic tick *)

Lemma timersConsistent_ext (w w' : World) :
  scheduled w' = scheduled w -> nextHandle w' = nextHandle w ->
  timer w' = timer w -> timersConsistent w -> timersConsistent w'.
Proof.
  unfold timersConsistent, intervalHandles. intros -> -> ->. trivial.
Qed.

Lemma NoDup_keys_filter {A : Type} (f : positive * A -> bool)
    (l : list (positive * A)) :
  NoDup (map fst l) -> NoDup (map fst (filter f l)).
Proof.
  induction l as [| e r IH]; cbn; intros H; [constructor |].
  inversion H as [| k ks Hk Hr]; subst.
  destruct (f e); cbn; [| exact (IH Hr)].
  constructor; [| exact (IH Hr)].
  intros Hin. apply Hk.
  apply in_map_iff in Hin. destruct Hin as (x & Hx & Hin).
  apply filter_In in Hin. apply in_map_iff. exists x. tauto.
Qed.

Lemma NoDup_keys_functional {A : Type} (l : list (positive * A))
    (k : positive) (a b : A) :
  NoDup (map fst l) -> In (k, a) l -> In (k, b) l -> a = b.
Proof.
  induction l as [| e r IH]; cbn; intros H Ha Hb; [destruct Ha |].
  inversion H as [| k0 ks Hk Hr]; subst.
  destruct Ha as [-> | Ha], Hb as [Hb | Hb].
  - congruence.
  - exfalso. apply Hk. cbn. apply in_map_iff. exists (k, b). tauto.
  - exfalso. apply Hk. subst e. cbn. apply in_map_iff. exists (k, a). tauto.
  - exact (IH Hr Ha Hb).
Qed.

Lemma intervalHandles_unschedule (h : positive) (w : World) :
  intervalHandles (unschedule h w)
  = filter (fun k => negb (Pos.eqb k h)) (intervalHandles w).
Proof.
  unfold intervalHandles, unschedule. fields.
  induction (scheduled w) as [| [k cb] r IH]; cbn; [reflexivity |].
  destruct (Pos.eqb k h) eqn:Hk; destruct cb; cbn; rewrite ?Hk, ?IH; reflexivity.
Qed.

Lemma intervalHandles_scheduled (k : positive) (w : World) :
  In k (intervalHandles w) -> In (k, IntervalTick) (scheduled w).
Proof.
  unfold intervalHandles. intros H.
  apply in_map_iff in H. destruct H as ([k' cb] & Hk & Hin).
  apply filter_In in Hin. destruct Hin as [Hin Hcb].
  cbn in Hk, Hcb. subst k'. destruct cb; [exact Hin | discriminate].
Qed.

Lemma unschedule_consistent (h : positive) (w : World) :
  timersConsistent w ->
  NoDup (map fst (scheduled (unschedule h w)))
  /\ Forall (fun e => (fst e < nextHandle w)%positive)
       (scheduled (unschedule h w)).
Proof.
  intros (Hnd & Hfresh & _). unfold unschedule. fields. split.
  - apply NoDup_keys_filter, Hnd.
  - apply Forall_forall. intros e He. apply filter_In in He.
    rewrite Forall_forall in Hfresh. apply Hfresh, He.
Qed.

Lemma pause_consistent (w : World) :
  timersConsistent w -> timersConsistent (pause w) /\ timer (pause w) = None.
Proof.
  intros Hw. unfold pause. destruct (timer w) as [h |] eqn:Ht.
  - split; [| reflexivity].
    destruct (unschedule_consistent h w Hw) as (Hnd & Hfresh).
    destruct Hw as (_ & _ & Hint). rewrite Ht in Hint.
    split; [exact Hnd |]. split; [exact Hfresh |].
    change (intervalHandles (unschedule h w) = []).
    rewrite intervalHandles_unschedule, Hint. cbn.
    rewrite Pos.eqb_refl. reflexivity.
  - split; [exact Hw | exact Ht].
Qed.

Lemma schedule_interval_consistent (w w1 : World) :
  timersConsistent w -> timer w = None ->
  scheduled w1 = (nextHandle w, IntervalTick) :: scheduled w ->
  nextHandle w1 = Pos.succ (nextHandle w) ->
  timer w1 = Some (nextHandle w) ->
  timersConsistent w1.
Proof.
  intros (Hnd & Hfresh & Hint) Ht Hs Hn Htm.
  unfold timersConsistent, intervalHandles. rewrite Hs, Hn, Htm.
  rewrite Ht in Hint. unfold intervalHandles in Hint.
  rewrite Forall_forall in Hfresh.
  split; [| split].
  - cbn. constructor; [| exact Hnd].
    intros Hin. apply in_map_iff in Hin. destruct Hin as (e & He & Hin).
    apply Hfresh in Hin. rewrite He in Hin. lia.
  - constructor; [cbn; lia |].
    apply Forall_forall. intros e He. apply Hfresh in He. lia.
  - cbn. rewrite Hint. reflexivity.
Qed.

Lemma armThrottle_consistent (w : World) :
  timersConsistent w -> timersConsistent (armThrottle w).
Proof.
  intros (Hnd & Hfresh & Hint).
  unfold timersConsistent, intervalHandles in *. fields.
  rewrite Forall_forall in Hfresh.
  split; [| split].
  - cbn. constructor; [| exact Hnd].
    intros Hin. apply in_map_iff in Hin. destruct Hin as (e & He & Hin).
    apply Hfresh in Hin. rewrite He in Hin. lia.
  - constructor; [cbn; lia |].
    apply Forall_forall. intros e He. apply Hfresh in He. lia.
  - cbn. exact Hint.
Qed.

Lemma tickPush_consistent (clock : nat -> Z) (w : World) :
  timersConsistent w -> timersConsistent (tickPush clock w).
Proof.
  apply timersConsistent_ext;
    destruct w as [tm tgt st tot [wk sh lg ev [| |] ct] disp mv eff sch nh thr rd];
    reflexivity.
Qed.

Lemma completePhase_timers (w : World) :
  scheduled (completePhase w) = scheduled (pause w)
  /\ nextHandle (completePhase w) = nextHandle (pause w)
  /\ timer (completePhase w) = timer (pause w).
Proof.
  destruct w as [[h|] tgt st tot [wk sh lg ev [| |] ct] disp mv eff sch nh thr rd];
    repeat split; reflexivity.
Qed.

Lemma beginPhase_timers (clock : nat -> Z) (w : World) :
  scheduled (beginPhase clock w) = (nextHandle w, IntervalTick) :: scheduled w
  /\ nextHandle (beginPhase clock w) = Pos.succ (nextHandle w)
  /\ timer (beginPhase clock w) = Some (nextHandle w).
Proof. repeat split; reflexivity. Qed.

Lemma restart_consistent (clock : nat -> Z) (w : World) :
  timersConsistent w -> timersConsistent (beginPhase clock (completePhase w)).
Proof.
  intros Hw. destruct (pause_consistent w Hw) as (Hp & Hnone).
  destruct (completePhase_timers w) as (Hs & Hn & Ht).
  assert (Hc : timersConsistent (completePhase w))
    by (exact (timersConsistent_ext _ _ Hs Hn Ht Hp)).
  destruct (beginPhase_timers clock (completePhase w)) as (Hs' & Hn' & Ht').
  apply (schedule_interval_consistent (completePhase w)); try assumption.
  rewrite Ht. exact Hnone.
Qed.

Lemma tickPomodoro_consistent (clock : nat -> Z) (fuel : nat) :
  preserves timersConsistent (tickPomodoro clock fuel).
Proof.
  apply tickPomodoro_preserves.
  - exact armThrottle_consistent.
  - exact (tickPush_consistent clock).
  - exact (restart_consistent clock).
Qed.

Lemma startPomodoro_schedules
    (clock : nat -> Z) (tick : World -> option World) (w : World) :
  exists w1,
    startPomodoro clock tick w = tick w1
    /\ scheduled w1 = (nextHandle w, IntervalTick) :: scheduled w
    /\ nextHandle w1 = Pos.succ (nextHandle w)
    /\ timer w1 = Some (nextHandle w).
Proof.
  unfold startPomodoro, dateNow, schedule.
  destruct (negb (Js.truthy (targetTime w))).
  - eexists. split; [reflexivity |]. repeat split.
  - cbv beta iota zeta.
    match goal with |- context [if ?c then _ else _] => destruct c end;
      (eexists; split; [reflexivity |]); repeat split.
Qed.

Lemma existsb_scheduled (h : positive) (p : Callback -> bool) (w : World) :
  existsb (fun e => Pos.eqb (fst e) h && p (snd e)) (scheduled w) = true ->
  exists cb, In (h, cb) (scheduled w) /\ p cb = true.
Proof.
  intros H. apply existsb_exists in H. destruct H as ([k cb] & Hin & Hk).
  cbn in Hk. apply andb_true_iff in Hk. destruct Hk as [Hk Hp].
  apply Pos.eqb_eq in Hk. subst k. exists cb. tauto.
Qed.

Lemma throttleRelease_consistent (h : positive) (w : World) :
  timersConsistent w -> In (h, ThrottleRelease) (scheduled w) ->
  timersConsistent (throttleRelease h w).
Proof.
  intros Hw Hin.
  destruct (unschedule_consistent h w Hw) as (Hnd & Hfresh).
  destruct Hw as (Hnd0 & _ & Hint).
  split; [exact Hnd |]. split; [exact Hfresh |].
  change (intervalHandles (unschedule h w)
          = match timer w with Some k => [k] | None => [] end).
  rewrite intervalHandles_unschedule, Hint.
  destruct (timer w) as [k |] eqn:Ht; [| reflexivity].
  cbn. destruct (Pos.eqb_spec k h) as [-> | _]; [| reflexivity].
  exfalso.
  assert (Hk : In (h, IntervalTick) (scheduled w)).
  { apply intervalHandles_scheduled. rewrite Hint. left. reflexivity. }
  discriminate (NoDup_keys_functional _ _ _ _ Hnd0 Hin Hk).
Qed.

Lemma handle_consistent (clock : nat -> Z) (fuel : nat) (e : Event) :
  preserves timersConsistent (handle clock fuel e).
Proof.
  intros w w' Hw H. destruct e; cbn in H.
  - unfold start in H. destruct (timer w) eqn:Ht.
    + injection H as <-. exact Hw.
    + destruct (startPomodoro_schedules clock (tickPomodoro clock fuel) w)
        as (w1 & Heq & Hs & Hn & Htm).
      rewrite Heq in H.
      apply (tickPomodoro_consistent clock fuel w1 w'); [| exact H].
      exact (schedule_interval_consistent w w1 Hw Ht Hs Hn Htm).
  - injection H as <-. apply pause_consistent, Hw.
  - injection H as <-. destruct (pause_consistent w Hw) as (Hp & _).
    revert Hp. apply timersConsistent_ext; reflexivity.
  - injection H as <-. destruct (pause_consistent w Hw) as (Hp & _).
    revert Hp. apply timersConsistent_ext; reflexivity.
  - injection H as <-. destruct (pause_consistent w Hw) as (Hp & _).
    revert Hp. apply timersConsistent_ext;
      destruct w as [[h|] tgt st tot ps disp mv eff sch nh thr rd]; reflexivity.
  - injection H as <-. revert Hw. apply timersConsistent_ext;
      unfold handleSettingsInput; generalize (readSettings inp);
      intros [a b c d];
      destruct w as [[h|] tgt st tot ps disp mv eff sch nh thr rd]; reflexivity.
  - injection H as <-. revert Hw. apply timersConsistent_ext;
      unfold handleSettingsChange; generalize (readSettings inp);
      intros [a b c d];
      destruct w as [[h|] tgt st tot ps disp mv eff sch nh thr rd]; reflexivity.
  - destruct (existsb _ _); [| discriminate].
    exact (tickPomodoro_consistent clock fuel w w' Hw H).
  - destruct (existsb _ _) eqn:He; [| discriminate].
    injection H as <-.
    apply (existsb_scheduled h
             (fun cb => match cb with ThrottleRelease => true | _ => false end))
      in He.
    destruct He as ([|] & Hin & Hp); [discriminate Hp |].
    exact (throttleRelease_consistent h w Hw Hin).
Qed.

Lemma init_consistent (saved : option FocusSettings) :
  timersConsistent (init saved constructed).
Proof.
  destruct saved as [[a b c d] |]; repeat split; cbn; constructor.
Qed.

Lemma reachable_consistent (clock : nat -> Z) (w : World) :
  reachable clock w -> timersConsistent w.
Proof.
  intros (saved & fuel & es & Hrun).
  revert Hrun. generalize (init_consistent saved).
  generalize (init saved constructed). intros w0.
  revert w0. induction es as [| e r IH]; intros w0 Hw0 Hrun; cbn in Hrun.
  - injection Hrun as <-. exact Hw0.
  - destruct (handle clock fuel e w0) as [w1 |] eqn:He; [| discriminate].
    exact (IH w1 (handle_consistent clock fuel e w0 w1 Hw0 He) Hrun).
Qed.

(** X1. In every reachable state the periodic tick is scheduled exactly
    once, under the handle held in [timer], while the timer is Running, and
    not at all otherwise; no handle of the browser's table is used twice. *)
Theorem one_periodic_tick_when_reachable (clock : nat -> Z) (w : World) :
  reachable clock w ->
  intervalHandles w = match timer w with Some h => [h] | None => [] end
  /\ NoDup (map fst (scheduled w)).
Proof.
  intros Hw. destruct (reachable_consistent clock w Hw) as (Hnd & _ & Hint).
  split; assumption.
Qed.

Lemma one_periodic_tick_when_reachable_witness :
  reachable pauseClock pausedWorld /\ intervalHandles pausedWorld = [].
Proof.
  split; [exact pausedWorld_reachable |].
  exact (proj1 (one_periodic_tick_when_reachable pauseClock pausedWorld
                  pausedWorld_reachable)).
Defined.

(** X24. Once the timer is not Running (after a pause, a reset or a
    phase switch) no periodic tick is left in the browser's table: the
    firing of an interval, under any handle, is not an event that can
    happen, so no stale tick reaches a Paused or Idle timer. *)
Theorem no_tick_unless_running
    (clock : nat -> Z) (fuel : nat) (h : positive) (w : World) :
  reachable clock w ->
  timer w = None ->
  handle clock fuel (EInterval h) w = None.
Proof.
  intros Hw Ht. destruct (reachable_consistent clock w Hw) as (_ & _ & Hint).
  rewrite Ht in Hint. cbn [handle].
  destruct (existsb _ (scheduled w)) eqn:He; [| reflexivity].
  exfalso.
  apply (existsb_scheduled h
           (fun cb => match cb with IntervalTick => true | _ => false end))
    in He.
  destruct He as ([|] & Hin & Hp); [| discriminate Hp].
  assert (Hk : In h (intervalHandles w)).
  { unfold intervalHandles. apply in_map_iff. exists (h, IntervalTick).
    split; [reflexivity |]. apply filter_In. split; [exact Hin | reflexivity]. }
  rewrite Hint in Hk. destruct Hk.
Qed.

Lemma no_tick_unless_running_witness :
  reachable pauseClock pausedWorld
  /\ handle pauseClock 2 (EInterval 1) pausedWorld = None.
Proof.
  split; [exact pausedWorld_reachable |].
  exact (no_tick_unless_running pauseClock 2 1%positive pausedWorld
           pausedWorld_reachable eq_refl).
Defined.

(** ** Reset to defaults *)

(** X2. [resetToDefaults] leaves the timer Idle in the work phase with no
    completed cycle and the default settings 25/5/15/4, which it hands to
    the store; the display is the one that [reset] wrote, so it still shows
    the work minutes configured before the call. *)
Theorem resetToDefaults_restores_settings (w : World) :
  Idle (resetToDefaults w)
  /\ currentSettings (resetToDefaults w) = mkSettings 25 5 15 4
  /\ phase (pomodoroState (resetToDefaults w)) = Work
  /\ count (pomodoroState (resetToDefaults w)) = 0
  /\ totalDuration (resetToDefaults w) = 0
  /\ modeValue (resetToDefaults w) = MWork
  /\ hd_error (effects (resetToDefaults w))
     = Some (SaveSettings (mkSettings 25 5 15 4))
  /\ displayText (resetToDefaults w)
     = formatTime (work (pomodoroState w) * 60 * 1000).
Proof.
  destruct w as [[h|] tgt st tot ps disp mv eff sch nh thr rd];
    unfold Idle; cbn; repeat split; reflexivity.
Qed.

(** ** Preview and save of the settings *)

(** X3. The input handler is a preview: it adds nothing to the effect log,
    while the change handler adds the save of the new settings and the
    redraw of the cycle dots, and the two agree on everything else.  When
    the timer is not Running (Idle or Paused) both display the full
    duration of the current phase under the new settings. *)
Theorem settings_input_previews (inp : SettingsInputs) (w : World) :
  effects (handleSettingsInput inp w) = effects w
  /\ effects (handleSettingsChange inp w)
     = RenderCycles (fs_every (readSettings inp)) (count (pomodoroState w))
       :: SaveSettings (readSettings inp) :: effects w
  /\ set_effects (effects w) (handleSettingsChange inp w)
     = handleSettingsInput inp w
  /\ (timer w = None ->
      displayText (handleSettingsInput inp w)
      = formatTime
          (minutesOf (readSettings inp) (phase (pomodoroState w)) * 60 * 1000)).
Proof.
  unfold handleSettingsInput, handleSettingsChange.
  generalize (readSettings inp). intros [a b c d].
  destruct w as [[h|] tgt st tot [wk sh lg ev [| |] ct] disp mv eff sch nh thr rd];
    cbn; repeat split; try reflexivity; intros; discriminate.
Qed.

(** ** Start from Idle *)

Lemma beginPhase_fields (clock : nat -> Z) (w : World) :
  startTime (beginPhase clock w) = Some (clock (reads w))
  /\ targetTime (beginPhase clock w)
     = Some (clock (reads w) + phaseMinutes w * 60 * 1000)
  /\ totalDuration (beginPhase clock w) = phaseMinutes w * 60 * 1000
  /\ pomodoroState (beginPhase clock w) = pomodoroState w
  /\ inThrottle (beginPhase clock w) = inThrottle w
  /\ reads (beginPhase clock w) = S (reads w)
  /\ effects (beginPhase clock w) = effects w
  /\ timer (beginPhase clock w) = Some (nextHandle w).
Proof. repeat split; reflexivity. Qed.

(** X4. Started from Idle with the throttle released, a phase of positive
    length begins at the first clock reading: the timer is Running, the
    target is the start plus the minutes of the current phase times 60000,
    phase, count and settings are unchanged, and the first tick, made
    before the target, already shows the remaining time. *)
Theorem start_from_idle_begins_phase
    (clock : nat -> Z) (fuel : nat) (w : World) :
  Idle w ->
  inThrottle w = false ->
  0 < clock (reads w) ->
  0 < phaseMinutes w ->
  clock (S (reads w)) < clock (reads w) + phaseMinutes w * 60 * 1000 ->
  exists w',
    start clock (tickPomodoro clock (S fuel)) w = Some w'
    /\ Running w'
    /\ startTime w' = Some (clock (reads w))
    /\ targetTime w' = Some (clock (reads w) + phaseMinutes w * 60 * 1000)
    /\ totalDuration w' = phaseMinutes w * 60 * 1000
    /\ pomodoroState w' = pomodoroState w
    /\ displayText w'
       = formatTime
           (clock (reads w) + phaseMinutes w * 60 * 1000 - clock (S (reads w)))
    /\ intervalHandles w' = nextHandle w :: intervalHandles w.
Proof.
  intros [Htm Htgt] Hthr Hnow Hmin Hfirst.
  unfold start. rewrite Htm.
  rewrite startPomodoro_begin by (rewrite Htgt; reflexivity).
  destruct (beginPhase_fields clock w)
    as (Hs & Ht & Htot & Hps & Hth & Hrd & _ & Htimer).
  destruct (tickPomodoro_before_target clock fuel (beginPhase clock w) _ _
              Ht ltac:(lia) Hs ltac:(lia) ltac:(rewrite Hth; exact Hthr)
              ltac:(rewrite Hrd; lia))
    as (w' & Heq & Hd & _ & Htm' & Ht' & Hs' & Htot' & Hps' & _).
  exists w'. split; [exact Heq |].
  unfold Running. rewrite Htm', Htimer, Ht', Hs', Htot', Hps', Hd, Htot, Hps, Hrd.
  repeat split; try reflexivity; try discriminate.
  (* the periodic tick is the new one on top of the old table *)
  rewrite tickPomodoro_S in Heq. unfold throttle in Heq.
  rewrite Hth, Hthr in Heq. rewrite tickBody_steps in Heq.
  rewrite Ht, Hs in Heq.
  assert (Hnz1 : clock (reads w) + phaseMinutes w * 60 * 1000 <> 0) by lia.
  assert (Hnz2 : clock (reads w) <> 0) by lia.
  rewrite (truthy_Some _ Hnz1), (truthy_Some _ Hnz2) in Heq.
  cbn [negb orb] in Heq.
  assert (Hexp : expiredAt clock (beginPhase clock w) = false).
  { unfold expiredAt. rewrite Ht, Hrd. apply Z.leb_gt. lia. }
  rewrite Hexp in Heq. injection Heq as <-.
  unfold intervalHandles, tickPush.
  destruct w as [tm tgt st tot [wk sh lg ev [| |] ct] disp mv eff sch nh thr rd];
    reflexivity.
Qed.

Lemma start_from_idle_begins_phase_witness :
  Idle freshWorld
  /\ exists w',
       start startClock (tickPomodoro startClock 1) freshWorld = Some w'
       /\ targetTime w' = Some (5000 + 25 * 60 * 1000)
       /\ displayText w' = "00:24:59".
Proof.
  assert (Hidle : Idle freshWorld) by (split; reflexivity).
  split; [exact Hidle |].
  destruct (start_from_idle_begins_phase startClock 0 freshWorld Hidle eq_refl
              ltac:(vm_compute; reflexivity) ltac:(vm_compute; reflexivity)
              ltac:(vm_compute; reflexivity))
    as (w' & Heq & _ & _ & Ht & _ & _ & Hd & _).
  exists w'. split; [exact Heq |]. split; [exact Ht | exact Hd].
Defined.

(** ** Progress *)

Lemma ratio_le (a b t : Z) :
  0 < t -> a <= b -> (inject_Z a / inject_Z t <= inject_Z b / inject_Z t)%Q.
Proof.
  intros Ht Hab.
  assert (Hq : (0 < inject_Z t)%Q) by (unfold Qlt; cbn; lia).
  apply Qle_shift_div_l; [exact Hq |].
  unfold Qdiv. rewrite <- Qmult_assoc, (Qmult_comm (/ inject_Z t)).
  rewrite Qmult_inv_r, Qmult_1_r.
  - rewrite <- Zle_Qle. exact Hab.
  - intros H. rewrite H in Hq. discriminate Hq.
Qed.

(** X5. For a run of positive total duration the progress computed by a
    tick is a number between 0 and 1 as soon as the clock has not gone back
    behind the start; it does not decrease when more time has elapsed, and
    it is 1 from the total duration on. *)
Theorem progress_within_unit (elapsed1 elapsed2 total : Z) :
  0 < total ->
  0 <= elapsed1 <= elapsed2 ->
  exists q1 q2,
    Js.min1Div elapsed1 total = Js.PRatio q1
    /\ Js.min1Div elapsed2 total = Js.PRatio q2
    /\ (0 <= q1)%Q /\ (q1 <= q2)%Q /\ (q2 <= 1)%Q
    /\ (total <= elapsed2 -> (q2 == 1)%Q).
Proof.
  intros Ht [H1 H12]. unfold Js.min1Div.
  destruct (Z.eqb_spec total 0) as [-> | _]; [lia |].
  eexists. eexists. split; [reflexivity |]. split; [reflexivity |].
  assert (Hq : (0 < inject_Z total)%Q) by (unfold Qlt; cbn; lia).
  assert (H0 : (0 <= inject_Z elapsed1 / inject_Z total)%Q).
  { apply Qle_shift_div_l; [exact Hq |].
    rewrite Qmult_0_l. unfold Qle; cbn; lia. }
  split; [apply Q.min_glb; [discriminate | exact H0] |].
  split; [apply Q.min_le_compat_l, ratio_le; assumption |].
  split; [apply Q.le_min_l |].
  intros Hfull. apply Q.min_l.
  apply Qle_shift_div_l; [exact Hq |].
  rewrite Qmult_1_l. unfold Qle; cbn; lia.
Qed.

Lemma progress_within_unit_witness :
  exists q1 q2,
    Js.min1Div 30000 60000 = Js.PRatio q1
    /\ Js.min1Div 90000 60000 = Js.PRatio q2
    /\ (q1 <= q2)%Q /\ (q2 == 1)%Q.
Proof.
  destruct (progress_within_unit 30000 90000 60000
              ltac:(lia) ltac:(lia))
    as (q1 & q2 & E1 & E2 & _ & H12 & _ & Hfull).
  exists q1, q2. repeat split; try assumption. apply Hfull. lia.
Defined.

(** ** What a tick leaves alone *)

(** X6. A tick, with any number of phase completions inside it, never
    changes the four settings, never lowers the count of completed work
    phases, and never takes back a clock reading or an effect. *)
Theorem tick_keeps_settings
    (clock : nat -> Z) (fuel : nat) (w w' : World) :
  tickPomodoro clock fuel w = Some w' ->
  currentSettings w' = currentSettings w
  /\ count (pomodoroState w) <= count (pomodoroState w')
  /\ (reads w <= reads w')%nat
  /\ incl (effects w) (effects w').
Proof.
  intros H.
  set (P := fun x : World =>
              currentSettings x = currentSettings w
              /\ count (pomodoroState w) <= count (pomodoroState x)
              /\ (reads w <= reads x)%nat
              /\ incl (effects w) (effects x)).
  apply (tickPomodoro_preserves P clock) with (fuel := fuel) (w := w);
    [| | | | exact H].
  - intros x Hx. exact Hx.
  - intros x (Hs & Hc & Hr & He).
    unfold P, tickPush.
    destruct x as [tm tgt st tot [wk sh lg ev [| |] ct] disp mv eff sch nh thr rd];
      fields; (split; [exact Hs |]); (split; [exact Hc |]);
      (split; [lia |]); try exact He.
    intros e Hin. right. apply He, Hin.
  - intros x (Hs & Hc & Hr & He).
    destruct (beginPhase_fields clock (completePhase x))
      as (_ & _ & _ & Hps & _ & Hrd & Heff & _).
    destruct (completePhase_policy x) as (Hset & Hpol).
    destruct (completePhase_cleared x) as (_ & _ & _ & Hrd' & _).
    destruct (completePhase_outputs x) as (_ & _ & _ & _ & Hincl).
    unfold P. unfold currentSettings in *. rewrite Hps, Hrd, Heff, Hrd', Hset.
    split; [exact Hs |].
    split; [destruct (phase (pomodoroState x)); lia |].
    split; [lia |].
    intros e Hin. apply Hincl, He, Hin.
  - unfold P. repeat split; try reflexivity; try lia. apply incl_refl.
Qed.

Lemma tick_keeps_settings_witness :
  tickPomodoro tickClock 1 releasedWorld = Some tickedWorld
  /\ currentSettings tickedWorld = currentSettings releasedWorld.
Proof.
  assert (H : tickPomodoro tickClock 1 releasedWorld = Some tickedWorld)
    by (vm_compute; reflexivity).
  split; [exact H |].
  exact (proj1 (tick_keeps_settings tickClock 1 releasedWorld tickedWorld H)).
Defined.

(** ** The settings through the inputs *)

Lemma radixDigit_decimal :
  Js.radixDigit 10 "0" = Some 0 /\ Js.radixDigit 10 "1" = Some 1
  /\ Js.radixDigit 10 "2" = Some 2 /\ Js.radixDigit 10 "3" = Some 3
  /\ Js.radixDigit 10 "4" = Some 4 /\ Js.radixDigit 10 "5" = Some 5
  /\ Js.radixDigit 10 "6" = Some 6 /\ Js.radixDigit 10 "7" = Some 7
  /\ Js.radixDigit 10 "8" = Some 8 /\ Js.radixDigit 10 "9" = Some 9.
Proof. repeat split; reflexivity. Qed.

Ltac eval_digit :=
  match goal with
  | |- context [Js.radixDigit 10 ?c] =>
      let v := eval vm_compute in (Js.radixDigit 10 c) in
      change (Js.radixDigit 10 c) with v; cbv beta iota
  end.

Lemma parseDigits_acc (d : Decimal.uint) :
  forall acc : positive,
    Js.parseDigits 10 (NilEmpty.string_of_uint d) true (Zpos acc)
    = Some (Zpos (Pos.of_uint_acc d acc)).
Proof.
  induction d; intros acc; cbn [NilEmpty.string_of_uint Js.parseDigits Pos.of_uint_acc];
    [reflexivity | ..];
    eval_digit; rewrite <- IHd; f_equal; lia.
Qed.

Lemma parseDigits_uint (d : Decimal.uint) :
  Js.parseDigits 10 (NilEmpty.string_of_uint d) true 0
  = Some (Z.of_N (Pos.of_uint d)).
Proof.
  induction d; cbn [NilEmpty.string_of_uint Js.parseDigits Pos.of_uint];
    [reflexivity | exact IHd | ..];
    eval_digit; cbn [Z.of_N]; rewrite <- parseDigits_acc; f_equal.
Qed.

Lemma digits_unsigned (d : Decimal.uint) :
  d <> Decimal.Nil ->
  let s := NilEmpty.string_of_uint d in
  Js.trimStart s = s
  /\ Js.stripSign s = (false, s)
  /\ Js.stripHexPrefix s = (10, s)
  /\ Js.parseDigits 10 s false 0 = Js.parseDigits 10 s true 0.
Proof.
  intros Hd.
  destruct d as [| d | d | d | d | d | d | d | d | d | d];
    [contradiction | ..];
    try (repeat split; reflexivity).
  destruct d; repeat split; reflexivity.
Qed.

(** [parseInt] reads back the decimal digits that [String] prints. *)
Lemma parseInt_toString (n : Z) : Js.parseInt (Js.toString n) = Some n.
Proof.
  unfold Js.toString.
  rewrite <- (DecimalZ.of_to n) at 2.
  destruct n as [| p | p]; [reflexivity | |];
    cbn [Z.to_int Z.of_int NilZero.string_of_int Z.of_uint];
    pose proof (DecimalPos.Unsigned.to_uint_nonnil p) as Hn;
    destruct (digits_unsigned _ Hn) as (Ht & Hs & Hx & Hp);
    pose proof (parseDigits_uint (Pos.to_uint p)) as H;
    unfold NilZero.string_of_uint, Js.parseInt;
    destruct (Pos.to_uint p) eqn:E; try contradiction;
    rewrite <- E in *.
  all: try (rewrite Ht, Hs, Hx, Hp, H; reflexivity).
  all: change (Js.trimStart (String "-" (NilEmpty.string_of_uint (Pos.to_uint p))))
         with (String "-" (NilEmpty.string_of_uint (Pos.to_uint p)));
       cbn [Js.stripSign]; rewrite Hx, Hp, H; reflexivity.
Qed.

(** X7. For integer settings below 2^53 in absolute value, which [String]
    prints in plain digits, the settings written to the four inputs by
    [syncSettingsToUI] and read back by a settings handler are the settings
    themselves, except that a setting of 0 comes back as its default; so a
    save of the untouched inputs keeps all-non-zero settings as they
    are. *)
Theorem settings_survive_the_inputs (w : World) :
  plainSettings (currentSettings w) ->
  let s := currentSettings w in
  readSettings (syncSettingsToUI w)
  = mkSettings (zeroToDefault (fs_work s) 25) (zeroToDefault (fs_short s) 5)
      (zeroToDefault (fs_long s) 15) (zeroToDefault (fs_every s) 4)
  /\ (fs_work s <> 0 -> fs_short s <> 0 -> fs_long s <> 0 -> fs_every s <> 0 ->
      currentSettings (handleSettingsChange (syncSettingsToUI w) w) = s
      /\ currentSettings (handleSettingsInput (syncSettingsToUI w) w) = s).
Proof.
  intros _. cbv zeta.
  assert (Hread : readSettings (syncSettingsToUI w)
                  = mkSettings (zeroToDefault (work (pomodoroState w)) 25)
                      (zeroToDefault (short (pomodoroState w)) 5)
                      (zeroToDefault (long (pomodoroState w)) 15)
                      (zeroToDefault (every (pomodoroState w)) 4)).
  { unfold readSettings, syncSettingsToUI.
    cbn [pWork pShort pLong pEvery].
    rewrite !parseInt_toString. reflexivity. }
  split; [exact Hread |].
  intros H1 H2 H3 H4.
  rewrite handleSettingsChange_settings, handleSettingsInput_settings, Hread.
  unfold currentSettings, zeroToDefault in *. cbn [fs_work fs_short fs_long fs_every] in *.
  destruct (Z.eqb_spec (work (pomodoroState w)) 0); [contradiction |].
  destruct (Z.eqb_spec (short (pomodoroState w)) 0); [contradiction |].
  destruct (Z.eqb_spec (long (pomodoroState w)) 0); [contradiction |].
  destruct (Z.eqb_spec (every (pomodoroState w)) 0); [contradiction |].
  split; reflexivity.
Qed.

Lemma settings_survive_the_inputs_witness :
  plainSettings (currentSettings startedWorld)
  /\ readSettings (syncSettingsToUI startedWorld) = mkSettings 25 5 15 4.
Proof.
  assert (H : plainSettings (currentSettings startedWorld))
    by (repeat split; vm_compute; reflexivity).
  split; [exact H |].
  exact (proj1 (settings_survive_the_inputs startedWorld H)).
Defined.

(** * Further properties of the store *)

(** ** Deleting an exam *)

Lemma filter_length_lt {A : Type} (f : A -> bool) (l : list A) :
  (List.length (filter f l) < List.length l)%nat
  <-> exists x, In x l /\ f x = false.
Proof.
  induction l as [| a r IH]; cbn.
  - split; [lia | intros (x & [] & _)].
  - pose proof (filter_length_le f r) as Hle.
    destruct (f a) eqn:Ha; cbn.
    + rewrite <- Nat.succ_lt_mono, IH. split.
      * intros (x & Hx & Hf). exists x. tauto.
      * intros (x & [-> | Hx] & Hf); [congruence | exists x; tauto].
    + split; [intros _; exists a; tauto | intros _; lia].
Qed.

Lemma filter_all {A : Type} (f : A -> bool) (l : list A) :
  (forall x, In x l -> f x = true) -> filter f l = l.
Proof.
  induction l as [| a r IH]; cbn; intros H; [reflexivity |].
  rewrite (H a (or_introl eq_refl)). f_equal. apply IH.
  intros x Hx. apply H. right. exact Hx.
Qed.

(** X8. [deleteExam] returns true exactly when some exam has the id; it
    removes every exam with that id and keeps the others in their order;
    when it returns false the list is the same and nothing is persisted
    or notified. *)
Theorem deleteExam_removes_the_id (examId : string) (s : ExamStore.Store) :
  let r := ExamOps.deleteExam examId s in
  (fst r = true <-> exists e, In e (ExamStore.exams s) /\ ExamStore.id e = examId)
  /\ (forall e, In e (ExamStore.exams (snd r)) <->
                In e (ExamStore.exams s) /\ ExamStore.id e <> examId)
  /\ ExamStore.exams (snd r)
     = filter (fun e => negb (String.eqb (ExamStore.id e) examId))
         (ExamStore.exams s)
  /\ (fst r = false -> snd r = s).
Proof.
  cbv zeta. unfold ExamOps.deleteExam.
  set (keep := fun e => negb (String.eqb (ExamStore.id e) examId)).
  assert (Hlt : (List.length (filter keep (ExamStore.exams s))
                 < List.length (ExamStore.exams s))%nat
                <-> exists e, In e (ExamStore.exams s) /\ ExamStore.id e = examId).
  { rewrite filter_length_lt. split; intros (e & He & Hk); exists e;
      (split; [exact He |]); unfold keep in *.
    - apply negb_false_iff, String.eqb_eq in Hk. exact Hk.
    - apply negb_false_iff, String.eqb_eq. exact Hk. }
  assert (Hin : forall e, In e (filter keep (ExamStore.exams s)) <->
                          In e (ExamStore.exams s) /\ ExamStore.id e <> examId).
  { intros e. rewrite filter_In. unfold keep.
    rewrite negb_true_iff, String.eqb_neq. tauto. }
  destruct (Nat.ltb_spec (List.length (filter keep (ExamStore.exams s)))
              (List.length (ExamStore.exams s))) as [Hshort | Hsame];
    cbn [fst snd ExamStore.exams ExamOps.committed].
  - split; [split; [intros _; apply Hlt, Hshort | reflexivity] |].
    split; [exact Hin |]. split; [reflexivity | discriminate].
  - split.
    { split; [discriminate |]. intros H. apply Hlt in H. lia. }
    split; [exact Hin |]. split; [reflexivity |].
    intros _. destruct s as [l lg]. cbn in *. f_equal.
    apply filter_all. intros x Hx.
    destruct (keep x) eqn:Hk; [reflexivity |].
    exfalso. apply (Nat.lt_irrefl (List.length l)).
    eapply Nat.le_lt_trans; [exact Hsame |].
    apply filter_length_lt. exists x. tauto.
Qed.

(** ** Updating an exam *)

Lemma findIndex_None (examId : string) (l : list ExamStore.Exam) :
  ExamOps.findIndex examId l = None
  <-> forall e, In e l -> ExamStore.id e <> examId.
Proof.
  induction l as [| a r IH]; cbn.
  - split; [intros _ e [] | reflexivity].
  - destruct (String.eqb_spec (ExamStore.id a) examId) as [Heq | Hne].
    + split; [discriminate |]. intros H. exfalso.
      exact (H a (or_introl eq_refl) Heq).
    + destruct (ExamOps.findIndex examId r) as [i |].
      * split; [discriminate |]. intros H.
        assert (Hr : forall e, In e r -> ExamStore.id e <> examId)
          by (intros e He; apply H; right; exact He).
        apply IH in Hr. discriminate Hr.
      * split; [| reflexivity]. intros _ e [<- | He]; [exact Hne |].
        apply (proj1 IH eq_refl e He).
Qed.

Lemma findIndex_Some (examId : string) (l : list ExamStore.Exam) (i : nat) :
  ExamOps.findIndex examId l = Some i ->
  exists e,
    nth_error l i = Some e /\ ExamStore.id e = examId
    /\ forall j e', (j < i)%nat -> nth_error l j = Some e' ->
                    ExamStore.id e' <> examId.
Proof.
  revert i. induction l as [| a r IH]; cbn; intros i H; [discriminate |].
  destruct (String.eqb_spec (ExamStore.id a) examId) as [Heq | Hne].
  - injection H as <-. exists a. repeat split; [exact Heq |]. intros j e' Hj. lia.
  - destruct (ExamOps.findIndex examId r) as [k |]; [| discriminate].
    injection H as <-. destruct (IH k eq_refl) as (e & Hn & Hid & Hfirst).
    exists e. repeat split; [exact Hn | exact Hid |].
    intros [| j] e' Hj Hn'; cbn in Hn'.
    + injection Hn' as <-. exact Hne.
    + apply (Hfirst j e'); [lia | exact Hn'].
Qed.

Lemma setAt_spec (i : nat) (v : ExamStore.Exam) (l : list ExamStore.Exam) :
  (i < List.length l)%nat ->
  List.length (ExamOps.setAt i v l) = List.length l
  /\ nth_error (ExamOps.setAt i v l) i = Some v
  /\ forall j, j <> i ->
       nth_error (ExamOps.setAt i v l) j = nth_error l j.
Proof.
  revert i. induction l as [| a r IH]; intros i Hi; cbn in Hi; [lia |].
  destruct i as [| i]; cbn.
  - repeat split. intros [| j] Hj; [congruence | reflexivity].
  - destruct (IH i ltac:(lia)) as (Hlen & Hnth & Hother).
    repeat split; [lia | exact Hnth |].
    intros [| j] Hj; cbn; [reflexivity | apply Hother; congruence].
Qed.

(** X9. [updateExam] on an id that no exam has returns false and leaves
    the store as it is.  Otherwise it returns true, persists and notifies,
    and replaces the first exam with that id, and only that one, by the
    exam merged with the updates: the list keeps its length and every
    other position. *)
Theorem updateExam_changes_first_match
    (examId : string) (u : ExamOps.ExamUpdates) (s : ExamStore.Store) :
  ((forall e, In e (ExamStore.exams s) -> ExamStore.id e <> examId) ->
   ExamOps.updateExam examId u s = (false, s))
  /\ ((exists e, In e (ExamStore.exams s) /\ ExamStore.id e = examId) ->
      exists i e,
        nth_error (ExamStore.exams s) i = Some e
        /\ ExamStore.id e = examId
        /\ (forall j e', (j < i)%nat ->
              nth_error (ExamStore.exams s) j = Some e' ->
              ExamStore.id e' <> examId)
        /\ fst (ExamOps.updateExam examId u s) = true
        /\ let l' := ExamStore.exams (snd (ExamOps.updateExam examId u s)) in
           List.length l' = List.length (ExamStore.exams s)
           /\ nth_error l' i = Some (ExamOps.merge e u)
           /\ (forall j, j <> i ->
                 nth_error l' j = nth_error (ExamStore.exams s) j)).
Proof.
  unfold ExamOps.updateExam. split.
  - intros H. apply findIndex_None in H. rewrite H. reflexivity.
  - intros (e0 & Hin & Hid).
    destruct (ExamOps.findIndex examId (ExamStore.exams s)) as [i |] eqn:Hf.
    + destruct (findIndex_Some _ _ _ Hf) as (e & Hn & Hide & Hfirst).
      exists i, e. rewrite Hn. cbn [fst snd ExamStore.exams ExamOps.committed].
      assert (Hi : (i < List.length (ExamStore.exams s))%nat)
        by (apply nth_error_Some; congruence).
      destruct (setAt_spec i (ExamOps.merge e u) _ Hi) as (Hlen & Hnth & Hoth).
      repeat split; assumption.
    + exfalso. exact (proj1 (findIndex_None _ _) Hf e0 Hin Hid).
Qed.

Lemma updateExam_changes_first_match_witness :
  fst (ExamOps.updateExam "a1" retitle twoExamStore) = true
  /\ List.length (ExamStore.exams (snd (ExamOps.updateExam "a1" retitle twoExamStore)))
     = 2%nat.
Proof.
  destruct (proj2 (updateExam_changes_first_match "a1" retitle twoExamStore)
              (ex_intro _ mathExam (conj (or_introl eq_refl) eq_refl)))
    as (i & e & _ & _ & _ & Hret & Hlen & _).
  split; [exact Hret | exact Hlen].
Defined.

(** ** Toggling completion *)

Lemma findIndex_setAt (examId : string) (l : list ExamStore.Exam) (i : nat)
    (e v : ExamStore.Exam) :
  ExamOps.findIndex examId l = Some i ->
  nth_error l i = Some e -> ExamStore.id v = ExamStore.id e ->
  ExamOps.findIndex examId (ExamOps.setAt i v l) = Some i
  /\ nth_error (ExamOps.setAt i v l) i = Some v.
Proof.
  revert i. induction l as [| a r IH]; cbn; intros i Hf Hn Hid; [discriminate |].
  destruct (String.eqb_spec (ExamStore.id a) examId) as [Heq | Hne].
  - injection Hf as <-. cbn in Hn. injection Hn as <-. cbn.
    rewrite Hid, Heq, String.eqb_refl. split; reflexivity.
  - destruct (ExamOps.findIndex examId r) as [k |] eqn:Hk; [| discriminate].
    injection Hf as <-. cbn in Hn. cbn.
    destruct (String.eqb_spec (ExamStore.id a) examId); [contradiction |].
    destruct (IH k eq_refl Hn Hid) as (H1 & H2). rewrite H1. split; [reflexivity | exact H2].
Qed.

Lemma setAt_setAt (i : nat) (v v' : ExamStore.Exam) (l : list ExamStore.Exam) :
  ExamOps.setAt i v' (ExamOps.setAt i v l) = ExamOps.setAt i v' l.
Proof.
  revert i. induction l as [| a r IH]; intros [| i]; cbn; try reflexivity.
  rewrite IH. reflexivity.
Qed.

Lemma map_setAt_same (f : ExamStore.Exam -> ExamStore.Exam) (i : nat)
    (e v : ExamStore.Exam) (l : list ExamStore.Exam) :
  nth_error l i = Some e -> f v = f e ->
  map f (ExamOps.setAt i v l) = map f l.
Proof.
  revert i. induction l as [| a r IH]; intros [| i] Hn Hf; cbn in *;
    try discriminate.
  - injection Hn as <-. rewrite Hf. reflexivity.
  - rewrite (IH i Hn Hf). reflexivity.
Qed.

(** X10. [toggleExamCompletion] on an id that no exam has returns false
    and leaves the store as it is.  Otherwise it returns true; one toggle
    flips the status of the first exam with the id and of no other, and two
    toggles give back every exam with its completion status ([undefined]
    counting as not completed) and all its other fields. *)
Theorem toggleExamCompletion_twice (examId : string) (s : ExamStore.Store) :
  ((forall e, In e (ExamStore.exams s) -> ExamStore.id e <> examId) ->
   ExamOps.toggleExamCompletion examId s = (false, s))
  /\ ((exists e, In e (ExamStore.exams s) /\ ExamStore.id e = examId) ->
      let once := ExamOps.toggleExamCompletion examId s in
      let twice := ExamOps.toggleExamCompletion examId (snd once) in
      fst once = true /\ fst twice = true
      /\ (exists i e,
            nth_error (ExamStore.exams s) i = Some e
            /\ ExamStore.id e = examId
            /\ (forall j e', (j < i)%nat ->
                  nth_error (ExamStore.exams s) j = Some e' ->
                  ExamStore.id e' <> examId)
            /\ nth_error (ExamStore.exams (snd once)) i
               = Some (ExamOps.withCompleted (negb (ExamOps.isCompleted e)) e)
            /\ forall j, j <> i ->
                 nth_error (ExamStore.exams (snd once)) j
                 = nth_error (ExamStore.exams s) j)
      /\ map explicitCompletion (ExamStore.exams (snd twice))
         = map explicitCompletion (ExamStore.exams s)).
Proof.
  unfold ExamOps.toggleExamCompletion. split.
  - intros H. apply findIndex_None in H. rewrite H. reflexivity.
  - intros (e0 & Hin & Hid). cbv zeta.
    destruct (ExamOps.findIndex examId (ExamStore.exams s)) as [i |] eqn:Hf;
      [| exfalso; exact (proj1 (findIndex_None _ _) Hf e0 Hin Hid)].
    destruct (findIndex_Some _ _ _ Hf) as (e & Hn & Hide & Hfirst).
    rewrite Hn. cbn [fst snd ExamStore.exams ExamOps.committed].
    set (e1 := ExamOps.withCompleted (negb (ExamOps.isCompleted e)) e).
    destruct (findIndex_setAt examId _ i e e1 Hf Hn eq_refl) as (Hf1 & Hn1).
    rewrite Hf1, Hn1. cbn [fst snd ExamStore.exams ExamOps.committed].
    assert (Hi : (i < List.length (ExamStore.exams s))%nat)
      by (apply nth_error_Some; congruence).
    destruct (setAt_spec i e1 _ Hi) as (_ & _ & Hoth).
    split; [reflexivity |]. split; [reflexivity |].
    split; [exists i, e; repeat split; assumption |].
    rewrite setAt_setAt.
    apply (map_setAt_same explicitCompletion i e); [exact Hn |].
    unfold explicitCompletion, e1, ExamOps.withCompleted, ExamOps.isCompleted.
    cbn. rewrite negb_involutive. reflexivity.
Qed.

Lemma toggleExamCompletion_twice_witness :
  fst (ExamOps.toggleExamCompletion "c3" twoExamStore) = true
  /\ map explicitCompletion
       (ExamStore.exams
          (snd (ExamOps.toggleExamCompletion "c3"
                  (snd (ExamOps.toggleExamCompletion "c3" twoExamStore)))))
     = map explicitCompletion (ExamStore.exams twoExamStore).
Proof.
  destruct (proj2 (toggleExamCompletion_twice "c3" twoExamStore)
              (ex_intro _ physicsExam (conj (or_intror (or_introl eq_refl)) eq_refl)))
    as (H1 & _ & _ & H2).
  split; [exact H1 | exact H2].
Defined.

(** ** Exams of a day *)

Section DateFacts.

Variable localDate : string -> option string.
Variable toLowerCase : string -> string.

Lemma filterDate_valid (day : string) (l : list ExamStore.Exam) :
  Forall (fun e => ExamStore.extractDateString localDate (ExamStore.date e)
                   <> None) l ->
  ExamOps.filterDate localDate day l
  = Some (filter
            (fun e =>
               match ExamStore.extractDateString localDate (ExamStore.date e) with
               | Some d => String.eqb d day
               | None => false
               end) l).
Proof.
  induction 1 as [| e r He _ IH]; cbn; [reflexivity |].
  destruct (ExamStore.extractDateString localDate (ExamStore.date e)) as [d |];
    [| contradiction].
  rewrite IH. destruct (String.eqb d day); reflexivity.
Qed.

Lemma filterDate_app (day : string) (l : list ExamStore.Exam)
    (e : ExamStore.Exam) (d : string) :
  ExamStore.extractDateString localDate (ExamStore.date e) = Some d ->
  ExamOps.filterDate localDate day (l ++ [e])
  = match ExamOps.filterDate localDate day l with
    | Some found => Some (if String.eqb d day then (found ++ [e])%list else found)
    | None => None
    end.
Proof.
  intros Hd. induction l as [| a r IH]; cbn.
  - rewrite Hd. destruct (String.eqb d day); reflexivity.
  - destruct (ExamStore.extractDateString localDate (ExamStore.date a));
      [| reflexivity].
    rewrite IH. destruct (ExamOps.filterDate localDate day r); [| reflexivity].
    destruct (String.eqb d day), (String.eqb s day); reflexivity.
Qed.

Lemma addExam_appends
    (s : ExamStore.Store) (exam : ExamStore.Exam) (d : string) :
  ExamStore.datesValid localDate s ->
  ExamStore.extractDateString localDate (ExamStore.date exam) = Some d ->
  (List.length (ExamStore.exams s) < ExamStore.EXAMS_MAX)%nat ->
  fst (ExamStore.addExam localDate toLowerCase exam s) = ExamStore.Returned true
  /\ ExamStore.exams (snd (ExamStore.addExam localDate toLowerCase exam s))
     = (ExamStore.exams s ++ [exam])%list.
Proof.
  intros Hvalid Hd Hroom. unfold ExamStore.addExam. rewrite Hd.
  destruct (Nat.leb_spec ExamStore.EXAMS_MAX (List.length (ExamStore.exams s)));
    [lia |].
  pose proof (some_defined localDate toLowerCase (ExamStore.title exam) d _ Hvalid)
    as Hsome.
  destruct (ExamStore.some _ (ExamStore.exams s)) as [[|] |];
    [| | congruence]; split; reflexivity.
Qed.

(** X11. On a store whose dates are all readable, [getExamsForDate]
    returns, in their order, exactly the exams whose normalized date is the
    day asked for; an exam added by [addExam] shows up last under its own
    normalized date and under no other day. *)
Theorem getExamsForDate_after_addExam
    (s : ExamStore.Store) (exam : ExamStore.Exam) (d day : string) :
  ExamStore.datesValid localDate s ->
  ExamStore.extractDateString localDate (ExamStore.date exam) = Some d ->
  (List.length (ExamStore.exams s) < ExamStore.EXAMS_MAX)%nat ->
  exists found,
    ExamOps.getExamsForDate localDate day s = Some found
    /\ (forall e, In e found <->
          In e (ExamStore.exams s)
          /\ ExamStore.extractDateString localDate (ExamStore.date e) = Some day)
    /\ ExamOps.getExamsForDate localDate day
         (snd (ExamStore.addExam localDate toLowerCase exam s))
       = Some (if String.eqb d day then (found ++ [exam])%list else found).
Proof.
  intros Hvalid Hd Hroom.
  unfold ExamOps.getExamsForDate.
  rewrite (filterDate_valid day _ Hvalid).
  eexists. split; [reflexivity |]. split.
  - intros e. rewrite filter_In.
    destruct (ExamStore.extractDateString localDate (ExamStore.date e)) as [x |].
    + rewrite String.eqb_eq. split; intros [H1 H2]; (split; [exact H1 |]); congruence.
    + split; intros [_ H]; discriminate H.
  - rewrite (proj2 (addExam_appends s exam d Hvalid Hd Hroom)).
    rewrite (filterDate_app day _ exam d Hd), (filterDate_valid day _ Hvalid).
    reflexivity.
Qed.

End DateFacts.

Lemma getExamsForDate_after_addExam_witness :
  ExamStore.datesValid noLocalDate oneExamStore
  /\ exists found,
       ExamOps.getExamsForDate noLocalDate "2025-01-15" oneExamStore = Some found
       /\ ExamOps.getExamsForDate noLocalDate "2025-01-15"
            (snd (ExamStore.addExam noLocalDate ExamStore.asciiLower mathAgain
                    oneExamStore))
          = Some (found ++ [mathAgain])%list.
Proof.
  assert (Hv : ExamStore.datesValid noLocalDate oneExamStore).
  { constructor; [discriminate | constructor]. }
  split; [exact Hv |].
  destruct (getExamsForDate_after_addExam noLocalDate ExamStore.asciiLower
              oneExamStore mathAgain "2025-01-15" "2025-01-15" Hv eq_refl
              ltac:(cbn; unfold ExamStore.EXAMS_MAX; lia))
    as (found & Hget & _ & Hafter).
  exists found. split; [exact Hget | exact Hafter].
Defined.

(** ** Adding, then deleting *)

Section AddDeleteFacts.

Variable localDate : string -> option string.
Variable toLowerCase : string -> string.

(** X12. Below the limit and on readable dates, adding an exam whose id no
    stored exam has and then deleting that id returns true both times and
    gives back the list of exams as it was. *)
Theorem addExam_then_deleteExam
    (s : ExamStore.Store) (exam : ExamStore.Exam) (d : string) :
  ExamStore.datesValid localDate s ->
  ExamStore.extractDateString localDate (ExamStore.date exam) = Some d ->
  (List.length (ExamStore.exams s) < ExamStore.EXAMS_MAX)%nat ->
  (forall e, In e (ExamStore.exams s) -> ExamStore.id e <> ExamStore.id exam) ->
  let added := ExamStore.addExam localDate toLowerCase exam s in
  let deleted := ExamOps.deleteExam (ExamStore.id exam) (snd added) in
  fst added = ExamStore.Returned true
  /\ fst deleted = true
  /\ ExamStore.exams (snd deleted) = ExamStore.exams s.
Proof.
  intros Hvalid Hd Hroom Hfresh. cbv zeta.
  destruct (addExam_appends localDate toLowerCase s exam d Hvalid Hd Hroom)
    as (Hret & Hlist).
  split; [exact Hret |].
  unfold ExamOps.deleteExam. rewrite Hlist.
  assert (Hkeep : filter (fun e => negb (String.eqb (ExamStore.id e) (ExamStore.id exam)))
                    (ExamStore.exams s ++ [exam]) = ExamStore.exams s).
  { rewrite filter_app. cbn. rewrite String.eqb_refl. cbn.
    rewrite app_nil_r. apply filter_all. intros x Hx.
    apply negb_true_iff, String.eqb_neq, Hfresh, Hx. }
  rewrite Hkeep, length_app. cbn [List.length].
  destruct (Nat.ltb_spec (List.length (ExamStore.exams s))
              (List.length (ExamStore.exams s) + 1)); [| lia].
  split; reflexivity.
Qed.

(** X13. [addExam] never shrinks the list and never grows a list of at
    most 1000 exams beyond 1000, whatever the dates are and whether it
    returns true, returns false or throws. *)
Theorem addExam_respects_the_limit
    (s : ExamStore.Store) (exam : ExamStore.Exam) :
  let s' := snd (ExamStore.addExam localDate toLowerCase exam s) in
  (List.length (ExamStore.exams s) <= List.length (ExamStore.exams s'))%nat
  /\ ((List.length (ExamStore.exams s) <= ExamStore.EXAMS_MAX)%nat ->
      (List.length (ExamStore.exams s') <= ExamStore.EXAMS_MAX)%nat)
  /\ (fst (ExamStore.addExam localDate toLowerCase exam s) = ExamStore.Thrown ->
      s' = s).
Proof.
  cbv zeta. unfold ExamStore.addExam.
  destruct (Nat.leb_spec ExamStore.EXAMS_MAX (List.length (ExamStore.exams s))).
  - cbn. repeat split; try lia. discriminate.
  - destruct (ExamStore.extractDateString localDate (ExamStore.date exam));
      [| cbn; repeat split; lia].
    destruct (ExamStore.some _ (ExamStore.exams s)) as [[|] |]; cbn;
      rewrite ?length_app; cbn; repeat split; try lia; discriminate.
Qed.

End AddDeleteFacts.

Lemma addExam_then_deleteExam_witness :
  ExamStore.datesValid noLocalDate oneExamStore
  /\ ExamStore.exams
       (snd (ExamOps.deleteExam (ExamStore.id mathAgain)
               (snd (ExamStore.addExam noLocalDate ExamStore.asciiLower mathAgain
                       oneExamStore))))
     = ExamStore.exams oneExamStore.
Proof.
  assert (Hv : ExamStore.datesValid noLocalDate oneExamStore).
  { constructor; [discriminate | constructor]. }
  split; [exact Hv |].
  refine (proj2 (proj2 (addExam_then_deleteExam noLocalDate ExamStore.asciiLower
                   oneExamStore mathAgain "2025-01-15" Hv eq_refl _ _))).
  - cbn; unfold ExamStore.EXAMS_MAX; lia.
  - intros e [<- | []]. discriminate.
Defined.

(** ** The timetable *)

(** X14. [addTimetableBlock] refuses a block, with a toast and no other
    change, exactly when 500 blocks or more are stored; otherwise it
    appends the block, whatever its content, and [getTimetableForDate]
    then returns it last under its own date and leaves every other day as
    it was. *)
Theorem addTimetableBlock_then_lookup
    (b : Timetable.TimetableBlock) (s : Timetable.Store) (day : string) :
  let r := Timetable.addTimetableBlock b s in
  (fst r = false <->
   (Timetable.TIMETABLE_MAX <= List.length (Timetable.timetable s))%nat)
  /\ (fst r = false -> Timetable.timetable (snd r) = Timetable.timetable s)
  /\ (fst r = true ->
      Timetable.timetable (snd r) = (Timetable.timetable s ++ [b])%list
      /\ Timetable.getTimetableForDate day (snd r)
         = (if String.eqb (Timetable.b_date b) day
            then Timetable.getTimetableForDate day s ++ [b]
            else Timetable.getTimetableForDate day s)%list).
Proof.
  cbv zeta. unfold Timetable.addTimetableBlock, Timetable.getTimetableForDate.
  destruct (Nat.leb_spec Timetable.TIMETABLE_MAX
              (List.length (Timetable.timetable s))); cbn.
  - repeat split; try tauto; try lia; discriminate.
  - split; [split; [discriminate | lia] |].
    split; [discriminate |]. intros _. split; [reflexivity |].
    rewrite filter_app. cbn.
    destruct (String.eqb (Timetable.b_date b) day);
      [reflexivity | apply app_nil_r].
Qed.

(** X15. [deleteTimetableBlock] returns true exactly when some block has
    the id, removes every block with that id and keeps the others; a block
    added under an id that no stored block has is removed again by it,
    which gives back the timetable as it was. *)
Theorem deleteTimetableBlock_removes_the_id
    (blockId : string) (b : Timetable.TimetableBlock) (s : Timetable.Store) :
  let r := Timetable.deleteTimetableBlock blockId s in
  (fst r = true <->
   exists x, In x (Timetable.timetable s) /\ Timetable.b_id x = blockId)
  /\ (forall x, In x (Timetable.timetable (snd r)) <->
                In x (Timetable.timetable s) /\ Timetable.b_id x <> blockId)
  /\ (fst r = false -> snd r = s)
  /\ ((List.length (Timetable.timetable s) < Timetable.TIMETABLE_MAX)%nat ->
      (forall x, In x (Timetable.timetable s) ->
                 Timetable.b_id x <> Timetable.b_id b) ->
      Timetable.timetable
        (snd (Timetable.deleteTimetableBlock (Timetable.b_id b)
                (snd (Timetable.addTimetableBlock b s))))
      = Timetable.timetable s).
Proof.
  cbv zeta. unfold Timetable.deleteTimetableBlock.
  set (keep := fun x => negb (String.eqb (Timetable.b_id x) blockId)).
  assert (Hlt : (List.length (filter keep (Timetable.timetable s))
                 < List.length (Timetable.timetable s))%nat
                <-> exists x, In x (Timetable.timetable s)
                              /\ Timetable.b_id x = blockId).
  { rewrite filter_length_lt. split; intros (x & Hx & Hk); exists x;
      (split; [exact Hx |]); unfold keep in *.
    - apply negb_false_iff, String.eqb_eq in Hk. exact Hk.
    - apply negb_false_iff, String.eqb_eq. exact Hk. }
  assert (Hin : forall x, In x (filter keep (Timetable.timetable s)) <->
                          In x (Timetable.timetable s)
                          /\ Timetable.b_id x <> blockId).
  { intros x. rewrite filter_In. unfold keep.
    rewrite negb_true_iff, String.eqb_neq. tauto. }
  split; [| split; [| split]].
  - destruct (Nat.ltb_spec (List.length (filter keep (Timetable.timetable s)))
                (List.length (Timetable.timetable s))); cbn [fst].
    + split; [intros _; apply Hlt; assumption | reflexivity].
    + split; [discriminate |]. intros Hx. apply Hlt in Hx. lia.
  - destruct (Nat.ltb_spec (List.length (filter keep (Timetable.timetable s)))
                (List.length (Timetable.timetable s)));
      cbn [snd Timetable.timetable Timetable.committed]; exact Hin.
  - destruct (Nat.ltb_spec (List.length (filter keep (Timetable.timetable s)))
                (List.length (Timetable.timetable s))) as [| Hsame];
      cbn [fst snd]; [discriminate |].
    intros _. destruct s as [l lg]. cbn in *. f_equal.
    apply filter_all. intros x Hx.
    destruct (keep x) eqn:Hk; [reflexivity |].
    exfalso. apply (Nat.lt_irrefl (List.length l)).
    eapply Nat.le_lt_trans; [exact Hsame |].
    apply filter_length_lt. exists x. tauto.
  - intros Hroom Hfresh. unfold Timetable.addTimetableBlock.
    destruct (Nat.leb_spec Timetable.TIMETABLE_MAX
                (List.length (Timetable.timetable s))); [lia |].
    cbn [snd Timetable.timetable Timetable.committed].
    assert (Hkeep : filter (fun x => negb (String.eqb (Timetable.b_id x)
                                             (Timetable.b_id b)))
                      (Timetable.timetable s ++ [b]) = Timetable.timetable s).
    { rewrite filter_app. cbn. rewrite String.eqb_refl. cbn.
      rewrite app_nil_r. apply filter_all. intros x Hx.
      apply negb_true_iff, String.eqb_neq, Hfresh, Hx. }
    rewrite Hkeep.
    destruct (Nat.ltb_spec (List.length (Timetable.timetable s))
                (List.length (Timetable.timetable s ++ [b]))); reflexivity.
Qed.

(** * Properties of the utilities *)

(** ** Two decimal digits *)

Lemma two_digits (n : Z) :
  0 <= n < 100 ->
  Js.padStart2 (Js.toString n)
  = String (ascii_of_nat (48 + Z.to_nat n / 10))
      (String (ascii_of_nat (48 + Z.to_nat n mod 10)) EmptyString).
Proof.
  intros Hn.
  assert (Hall : forallb twoDigitsCheck (seq 0 100) = true)
    by (vm_compute; reflexivity).
  rewrite forallb_forall in Hall.
  specialize (Hall (Z.to_nat n)).
  unfold twoDigitsCheck in Hall. rewrite Z2Nat.id in Hall by lia.
  apply String.eqb_eq, Hall, in_seq. lia.
Qed.

Lemma string_length_append (s t : string) :
  String.length (s ++ t) = (String.length s + String.length t)%nat.
Proof. induction s as [| c r IH]; cbn; [reflexivity | rewrite IH; reflexivity]. Qed.

(** ** The display *)

Lemma timeFields_by_seconds (ms : Z) :
  0 <= ms ->
  ms / 3600000 = ms / 1000 / 3600
  /\ ms mod 3600000 / 60000 = (ms / 1000) mod 3600 / 60
  /\ ms mod 60000 / 1000 = (ms / 1000) mod 60.
Proof.
  intros Hms.
  pose proof (Z.mod_pos_bound ms 1000 ltac:(lia)) as Hr.
  assert (Hshift : forall x, (ms mod 1000 + 1000 * x) / 1000 = x).
  { intros x. rewrite (Z.mul_comm 1000 x), Z.div_add by lia.
    rewrite Z.div_small by lia. lia. }
  split; [rewrite Z.div_div by lia; reflexivity |].
  split.
  - change 3600000 with (1000 * 3600). rewrite Z.rem_mul_r by lia.
    change 60000 with (1000 * 60). rewrite <- Z.div_div by lia.
    rewrite Hshift. reflexivity.
  - change 60000 with (1000 * 60). rewrite Z.rem_mul_r by lia.
    apply Hshift.
Qed.

(** X16. For a non-negative number of milliseconds [formatTime] prints
    hours, minutes and seconds that add up to the whole seconds elapsed,
    with minutes and seconds below 60, so the text only depends on the
    whole seconds; below 100 hours the text has exactly eight
    characters. *)
Theorem formatTime_fields (ms : Z) :
  0 <= ms ->
  let '(h, m, s) := Utils.timeFields ms in
  formatTime ms
  = Js.padStart2 (Js.toString h) ++ ":" ++ Js.padStart2 (Js.toString m)
    ++ ":" ++ Js.padStart2 (Js.toString s)
  /\ 0 <= h /\ 0 <= m < 60 /\ 0 <= s < 60
  /\ h * 3600 + m * 60 + s = ms / 1000
  /\ formatTime (ms / 1000 * 1000) = formatTime ms
  /\ (ms < 360000000 -> String.length (formatTime ms) = 8%nat).
Proof.
  intros Hms. unfold Utils.timeFields.
  rewrite !Z.rem_mod_nonneg by lia.
  destruct (timeFields_by_seconds ms Hms) as (Eh & Em & Es).
  pose proof (Z.div_pos ms 1000 Hms ltac:(lia)) as Hq.
  set (q := ms / 1000) in *.
  pose proof (Z.mod_pos_bound q 3600 ltac:(lia)) as Hm1.
  pose proof (Z.mod_pos_bound q 60 ltac:(lia)) as Hs1.
  pose proof (Z.div_mod q 3600 ltac:(lia)) as Hd1.
  pose proof (Z.div_mod (q mod 3600) 60 ltac:(lia)) as Hd2.
  pose proof (Z.mod_pos_bound (q mod 3600) 60 ltac:(lia)) as Hm2.
  assert (Hmm : (q mod 3600) mod 60 = q mod 60).
  { rewrite <- (Z.mod_mod_divide q 3600 60); [reflexivity |].
    exists 60. reflexivity. }
  split; [unfold formatTime; rewrite !Z.rem_mod_nonneg by lia; reflexivity |].
  rewrite Eh, Em, Es.
  assert (Hh0 : 0 <= q / 3600) by (apply Z.div_pos; lia).
  assert (Hmr : 0 <= q mod 3600 / 60 < 60).
  { split; [apply Z.div_pos; lia | apply Z.div_lt_upper_bound; lia]. }
  split; [exact Hh0 |]. split; [exact Hmr |]. split; [exact Hs1 |].
  split; [lia |].
  split.
  - unfold formatTime.
    assert (H0 : 0 <= q * 1000) by lia.
    rewrite !Z.rem_mod_nonneg by lia.
    destruct (timeFields_by_seconds (q * 1000) H0) as (Eh' & Em' & Es').
    rewrite Eh', Em', Es', Eh, Em, Es, Z.div_mul by lia. reflexivity.
  - intros Hlt. unfold formatTime.
    rewrite !Z.rem_mod_nonneg by lia.
    rewrite Eh, Em, Es.
    rewrite !string_length_append.
    rewrite !two_digits; [reflexivity | lia | lia |].
    split; [exact Hh0 |].
    apply Z.div_lt_upper_bound; [lia |].
    assert (q < 360000) by (apply Z.div_lt_upper_bound; lia). lia.
Qed.

Lemma formatTime_fields_witness :
  formatTime (3723999 / 1000 * 1000) = formatTime 3723999
  /\ String.length (formatTime 3723999) = 8%nat.
Proof.
  pose proof (formatTime_fields 3723999 ltac:(lia)) as H.
  cbv beta iota zeta delta [Utils.timeFields] in H.
  destruct H as (_ & _ & _ & _ & _ & Hsec & Hlen).
  split; [exact Hsec | apply Hlen; lia].
Defined.

(** ** Sanitizing *)

Lemma chars_removeAngles (s : string) :
  Utils.chars (Utils.removeAngles s)
  = filter (fun c => negb (Ascii.eqb c "<" || Ascii.eqb c ">")) (Utils.chars s).
Proof.
  induction s as [| c r IH]; cbn; [reflexivity |].
  destruct (Ascii.eqb c "<" || Ascii.eqb c ">"); cbn; rewrite IH; reflexivity.
Qed.

Lemma chars_length (s : string) :
  List.length (Utils.chars s) = String.length s.
Proof. induction s as [| c r IH]; cbn; [reflexivity | rewrite IH; reflexivity]. Qed.

Lemma chars_substring_prefix (n : nat) (s : string) :
  Utils.chars (String.substring 0 n s) = firstn n (Utils.chars s).
Proof.
  revert s. induction n as [| n IH]; intros [| c r]; cbn; try reflexivity.
  rewrite IH. reflexivity.
Qed.

Lemma in_firstn {A : Type} (n : nat) (l : list A) (x : A) :
  In x (firstn n l) -> In x l.
Proof.
  revert l. induction n as [| n IH]; intros [| a r]; cbn; try tauto.
  intros [-> | H]; [left; reflexivity | right; apply IH, H].
Qed.

Lemma trimStart_length (s : string) :
  (String.length (Js.trimStart s) <= String.length s)%nat.
Proof.
  induction s as [| c r IH]; cbn; [lia |].
  destruct (Js.isWhiteSpace c); cbn; lia.
Qed.

Lemma trimEnd_length (s : string) :
  (String.length (Utils.trimEnd s) <= String.length s)%nat.
Proof.
  induction s as [| c r IH]; cbn; [lia |].
  destruct (Utils.trimEnd r); [destruct (Js.isWhiteSpace c) |]; cbn in *; lia.
Qed.

Lemma removeAngles_trim_clean (input : string) (c : ascii) :
  In c (Utils.chars (Utils.removeAngles (Utils.trim input))) ->
  c <> "<"%char /\ c <> ">"%char.
Proof.
  intros Hc. rewrite chars_removeAngles in Hc.
  apply filter_In in Hc. destruct Hc as [_ Hc].
  apply negb_true_iff, orb_false_iff in Hc. destruct Hc as [H1 H2].
  apply Ascii.eqb_neq in H1, H2. tauto.
Qed.

Lemma removeAngles_trim_length (input : string) :
  (String.length (Utils.removeAngles (Utils.trim input))
   <= String.length input)%nat.
Proof.
  rewrite <- chars_length, chars_removeAngles.
  eapply Nat.le_trans; [apply filter_length_le |].
  rewrite chars_length. unfold Utils.trim.
  eapply Nat.le_trans; [apply trimEnd_length | apply trimStart_length].
Qed.

(** X17. The text returned by [sanitizeInput] contains neither [<] nor
    [>], is never longer than the input, and is at most [maxLength]
    characters long when a positive limit is given. *)
Theorem sanitizeInput_is_clean (input : string) (maxLength : option nat) :
  let out := Utils.sanitizeInput input maxLength in
  (forall c, In c (Utils.chars out) -> c <> "<"%char /\ c <> ">"%char)
  /\ (String.length out <= String.length input)%nat
  /\ (forall n, maxLength = Some (S n) -> (String.length out <= S n)%nat).
Proof.
  cbv zeta.
  pose proof (removeAngles_trim_clean input) as Hclean.
  pose proof (removeAngles_trim_length input) as Hlen.
  unfold Utils.sanitizeInput.
  destruct maxLength as [[| n] |].
  - repeat split; try apply Hclean; try assumption. discriminate.
  - split; [| split].
    + intros c Hc. rewrite chars_substring_prefix in Hc.
      apply Hclean. eapply in_firstn. exact Hc.
    + rewrite <- chars_length, chars_substring_prefix.
      rewrite length_firstn, chars_length. lia.
    + intros m Hm. injection Hm as <-.
      rewrite <- chars_length, chars_substring_prefix, length_firstn. lia.
  - repeat split; try apply Hclean; try assumption. discriminate.
Qed.

(** ** Colors *)

Lemma isHexDigit_lower (c : ascii) :
  Utils.isHexDigit (ExamStore.lowerChar c) = Utils.isHexDigit c
  /\ (Ascii.eqb (ExamStore.lowerChar c) "#" = Ascii.eqb c "#").
Proof.
  destruct c as [[] [] [] [] [] [] [] []]; split; reflexivity.
Qed.

(** X18. A color is accepted by [isValidHexColor] exactly when its
    lower-case form is: the lower-casing done by the sanitizers never
    changes the verdict on a tag. *)
Theorem isValidHexColor_lower (color : string) :
  Utils.isValidHexColor (ExamStore.asciiLower color)
  = Utils.isValidHexColor color.
Proof.
  destruct color as [| c0 [| a [| b [| c [| d [| e [| f r]]]]]]];
    try reflexivity;
    cbn [ExamStore.asciiLower];
    destruct (isHexDigit_lower c0) as [_ H0];
    unfold Utils.isValidHexColor.
  all: assert (Hsharp : forall (A : Type) (x y : A) (k : ascii),
                 match k with "#"%char => x | _ => y end
                 = if Ascii.eqb k "#" then x else y)
         by (intros A x y [[] [] [] [] [] [] [] []]; reflexivity).
  all: rewrite !Hsharp, H0; destruct (Ascii.eqb c0 "#"); try reflexivity.
  destruct r; cbn [ExamStore.asciiLower]; [| reflexivity].
  rewrite (proj1 (isHexDigit_lower a)), (proj1 (isHexDigit_lower b)),
    (proj1 (isHexDigit_lower c)), (proj1 (isHexDigit_lower d)),
    (proj1 (isHexDigit_lower e)), (proj1 (isHexDigit_lower f)).
  reflexivity.
Qed.

(** ** Times of day *)

Lemma timeText_checked (h m : Z) :
  0 <= h < 24 -> 0 <= m < 60 ->
  Utils.isValidTime (Utils.timeText h m) = true
  /\ Utils.minutesOfDay (Utils.timeText h m) = h * 60 + m.
Proof.
  intros Hh Hm.
  assert (Hall : forallb timeCheck (seq 0 1440) = true)
    by (vm_compute; reflexivity).
  rewrite forallb_forall in Hall.
  specialize (Hall (Z.to_nat (h * 60 + m))).
  unfold timeCheck in Hall.
  assert (Eh : Z.of_nat (Z.to_nat (h * 60 + m) / 60) = h).
  { rewrite Nat2Z.inj_div, Z2Nat.id by lia.
    symmetry. apply Z.div_unique with (r := m); lia. }
  assert (Em : Z.of_nat (Z.to_nat (h * 60 + m) mod 60) = m).
  { rewrite Nat2Z.inj_mod, Z2Nat.id by lia.
    symmetry. apply Z.mod_unique with (q := h); lia. }
  rewrite Eh, Em in Hall.
  assert (Hin : In (Z.to_nat (h * 60 + m)) (seq 0 1440)) by (apply in_seq; lia).
  apply Hall, andb_true_iff in Hin. destruct Hin as [H1 H2].
  split; [exact H1 | apply Z.eqb_eq, H2].
Qed.

Lemma digit_char (c : ascii) (k : nat) :
  nat_of_ascii c = (48 + k)%nat -> c = ascii_of_nat (48 + k).
Proof. intros H. rewrite <- H. symmetry. apply ascii_nat_embedding. Qed.

(** X19. [isValidTime] accepts exactly the texts HH:MM of the hours 0 to
    23 and the minutes 0 to 59, each on two digits; on such a text the
    minutes that [validateTimetableBlock] computes are 60 times the hour
    plus the minute. *)
Theorem isValidTime_accepts_the_day (time : string) :
  (Utils.isValidTime time = true <->
   exists h m, 0 <= h < 24 /\ 0 <= m < 60 /\ time = Utils.timeText h m)
  /\ (forall h m, 0 <= h < 24 -> 0 <= m < 60 ->
        Utils.minutesOfDay (Utils.timeText h m) = h * 60 + m).
Proof.
  split; [| intros h m Hh Hm; apply (timeText_checked h m Hh Hm)].
  split.
  - intros H.
    destruct time as [| h1 [| h2 [| c3 [| m1 [| m2 [| x r]]]]]];
      try discriminate H;
      try (destruct c3 as [[] [] [] [] [] [] [] []]; discriminate H).
    destruct c3 as [[] [] [] [] [] [] [] []]; try discriminate H.
    unfold Utils.isValidTime, Utils.isDigit in H.
    set (a := nat_of_ascii h1) in *. set (b := nat_of_ascii h2) in *.
    set (c := nat_of_ascii m1) in *. set (d := nat_of_ascii m2) in *.
    repeat rewrite ?andb_true_iff, ?orb_true_iff, ?Nat.leb_le, ?Nat.eqb_eq in H.
    assert (Hr : (48 <= a /\ 48 <= b <= 57 /\ 10 * (a - 48) + (b - 48) < 24
                  /\ 48 <= c <= 53 /\ 48 <= d <= 57)%nat) by lia.
    clear H.
    exists (Z.of_nat (10 * (a - 48) + (b - 48))),
           (Z.of_nat (10 * (c - 48) + (d - 48))).
    split; [lia |]. split; [lia |].
    unfold Utils.timeText. rewrite !two_digits by lia.
    rewrite !Nat2Z.id.
    replace ((10 * (a - 48) + (b - 48)) / 10)%nat with (a - 48)%nat
      by (apply Nat.div_unique with (r := (b - 48)%nat); lia).
    replace ((10 * (a - 48) + (b - 48)) mod 10)%nat with (b - 48)%nat
      by (apply Nat.mod_unique with (q := (a - 48)%nat); lia).
    replace ((10 * (c - 48) + (d - 48)) / 10)%nat with (c - 48)%nat
      by (apply Nat.div_unique with (r := (d - 48)%nat); lia).
    replace ((10 * (c - 48) + (d - 48)) mod 10)%nat with (d - 48)%nat
      by (apply Nat.mod_unique with (q := (c - 48)%nat); lia).
    rewrite <- (digit_char h1 (a - 48)), <- (digit_char h2 (b - 48)),
      <- (digit_char m1 (c - 48)), <- (digit_char m2 (d - 48))
      by (fold a b c d; lia).
    reflexivity.
  - intros (h & m & Hh & Hm & ->). apply (timeText_checked h m Hh Hm).
Qed.

(** ** Days until an exam *)

(** X20. [daysBetween] is the number of days, rounded up, from the first
    instant to the second.  So the chip beside an exam reads Done once the
    exam lies a full day or more in the past, Today! from less than a day
    in the past up to the present instant, and the rounded-up number of
    days, at least 1, for any exam in the future, however near. *)
Theorem daysChip_ranges (now examDate : Z) :
  let diff := examDate - now in
  let days := Utils.daysBetween now examDate in
  ((days - 1) * Utils.msPerDay < diff <= days * Utils.msPerDay)
  /\ (diff <= - Utils.msPerDay -> Utils.daysChip now examDate = "Done")
  /\ (- Utils.msPerDay < diff <= 0 -> Utils.daysChip now examDate = "Today!")
  /\ (0 < diff ->
      1 <= days /\ Utils.daysChip now examDate = Js.toString days ++ "d").
Proof.
  cbv zeta. unfold Utils.daysChip, Utils.daysBetween.
  assert (HD : Utils.msPerDay = 86400000) by reflexivity.
  rewrite HD.
  pose proof (Z.div_mod (- (examDate - now)) 86400000 ltac:(lia)) as Hdm.
  pose proof (Z.mod_pos_bound (- (examDate - now)) 86400000 ltac:(lia)) as Hmb.
  set (k := - (examDate - now) / 86400000) in *.
  split; [lia |].
  split; [| split].
  - intros H. destruct (Z.eqb_spec (- k) 0); [lia |].
    destruct (Z.ltb_spec (- k) 0); [reflexivity | lia].
  - intros H. destruct (Z.eqb_spec (- k) 0); [reflexivity | lia].
  - intros H. split; [lia |].
    destruct (Z.eqb_spec (- k) 0); [lia |].
    destruct (Z.ltb_spec (- k) 0); [lia | reflexivity].
Qed.

(** ** Dates *)

Lemma four_digits (y : Z) :
  1000 <= y <= 9999 ->
  exists a b c d,
    Js.toString y = String a (String b (String c (String d EmptyString)))
    /\ Utils.isDigit a = true /\ Utils.isDigit b = true
    /\ Utils.isDigit c = true /\ Utils.isDigit d = true.
Proof.
  intros Hy.
  assert (Hall : forallb fourDigitsCheck (seq 1000 (9 * 1000)) = true)
    by (vm_compute; reflexivity).
  rewrite forallb_forall in Hall.
  specialize (Hall (Z.to_nat y) ltac:(apply in_seq; lia)).
  unfold fourDigitsCheck in Hall. rewrite Z2Nat.id in Hall by lia.
  destruct (Js.toString y) as [| a [| b [| c [| d [| x r]]]]];
    try discriminate Hall.
  repeat rewrite andb_true_iff in Hall.
  exists a, b, c, d. tauto.
Qed.

Lemma isDigit_of_nat (k : nat) :
  (k < 10)%nat -> Utils.isDigit (ascii_of_nat (48 + k)) = true.
Proof.
  intros Hk. unfold Utils.isDigit.
  rewrite nat_ascii_embedding by lia.
  apply andb_true_iff. split; apply Nat.leb_le; lia.
Qed.

(** X21. For a year from 1000 to 9999 the text that [formatDate] prints is
    YYYY-MM-DD, so [extractDateString] returns it as it is, without parsing
    it as a date again. *)
Theorem formatDate_is_read_back
    (localDate : string -> option string) (d : Utils.LocalDate) :
  1000 <= Utils.fullYear d <= 9999 ->
  0 <= Utils.monthIndex d <= 11 ->
  1 <= Utils.dayOfMonth d <= 31 ->
  String.length (Utils.formatDate d) = 10%nat
  /\ ExamStore.isDateOnly (Utils.formatDate d) = true
  /\ ExamStore.extractDateString localDate (Utils.formatDate d)
     = Some (Utils.formatDate d).
Proof.
  intros Hy Hm Hd.
  destruct (four_digits _ Hy) as (a & b & c & e & Hs & Ha & Hb & Hc & He).
  assert (Hdate : ExamStore.isDateOnly (Utils.formatDate d) = true).
  { unfold Utils.formatDate. rewrite Hs, !two_digits by lia.
    cbn [append ExamStore.isDateOnly].
    change ExamStore.isDigit with Utils.isDigit.
    rewrite Ha, Hb, Hc, He.
    rewrite !isDigit_of_nat; [reflexivity | ..];
      try (apply Nat.mod_upper_bound; lia);
      apply Nat.Div0.div_lt_upper_bound; lia. }
  split; [| split; [exact Hdate |]].
  - unfold Utils.formatDate. rewrite Hs, !two_digits by lia. reflexivity.
  - unfold ExamStore.extractDateString. rewrite Hdate. reflexivity.
Qed.

Lemma formatDate_is_read_back_witness :
  Utils.formatDate (Utils.mkLocalDate 2025 0 15) = "2025-01-15"
  /\ ExamStore.extractDateString noLocalDate
       (Utils.formatDate (Utils.mkLocalDate 2025 0 15))
     = Some (Utils.formatDate (Utils.mkLocalDate 2025 0 15)).
Proof.
  split; [reflexivity |].
  refine (proj2 (proj2 (formatDate_is_read_back noLocalDate
                          (Utils.mkLocalDate 2025 0 15) _ _ _)));
    cbn; lia.
Defined.

(** * Properties of the validators *)

Lemma present_Some (o : option string) (t : string) :
  Validation.present o = Some t -> o = Some t /\ t <> "".
Proof.
  destruct o as [[| c r] |]; cbn; intros H; try discriminate H.
  injection H as <-. split; [reflexivity | discriminate].
Qed.

Lemma sanitizeText_bounds (text : option string) (limit : nat) (t : string) :
  Validation.sanitizeText text (S limit) = Some t ->
  (String.length t <= S limit)%nat
  /\ forall c, In c (Utils.chars t) -> c <> "<"%char /\ c <> ">"%char.
Proof.
  unfold Validation.sanitizeText.
  destruct (Validation.present text) as [raw |]; [| discriminate].
  intros H. injection H as <-. unfold Utils.sanitizeInput. split.
  - rewrite <- chars_length, chars_substring_prefix, length_firstn. lia.
  - intros c Hc. rewrite chars_substring_prefix in Hc.
    apply (removeAngles_trim_clean raw). eapply in_firstn. exact Hc.
Qed.

Lemma titleErrors_nil (title : option string) :
  Validation.titleErrors title = [] ->
  exists t, title = Some t /\ Utils.trim t <> ""
            /\ (String.length t <= Validation.TITLE_MAX)%nat.
Proof.
  unfold Validation.titleErrors.
  destruct (Validation.present title) as [t |] eqn:Hp; [| discriminate].
  apply present_Some in Hp. destruct Hp as [-> _].
  destruct (Nat.eqb_spec (String.length (Utils.trim t)) 0); [discriminate |].
  destruct (Nat.ltb_spec Validation.TITLE_MAX (String.length t));
    [discriminate |].
  intros _. exists t. repeat split; [| assumption].
  intros Ht. rewrite Ht in *. cbn in *. congruence.
Qed.

Lemma tagErrors_nil (tag : option string) :
  Validation.tagErrors tag = [] ->
  exists t, tag = Some t /\ Utils.isValidHexColor t = true.
Proof.
  unfold Validation.tagErrors.
  destruct (Validation.present tag) as [t |] eqn:Hp; [| discriminate].
  apply present_Some in Hp. destruct Hp as [-> _].
  destruct (Utils.isValidHexColor t) eqn:Hv; [| discriminate].
  intros _. exists t. tauto.
Qed.

Lemma titleErrors_sanitized (title : option string) (e : Validation.ValidationError) :
  In e (Validation.titleErrors (Validation.sanitizeText title Validation.TITLE_MAX)) ->
  e = Validation.mkError "title" "Title is required".
Proof.
  unfold Validation.titleErrors.
  destruct (Validation.present (Validation.sanitizeText title _)) as [t |] eqn:Hp.
  - apply present_Some in Hp. destruct Hp as [Hs _].
    apply sanitizeText_bounds in Hs. destruct Hs as [Hlen _].
    destruct (Nat.eqb_spec (String.length (Utils.trim t)) 0).
    + intros [<- | []]. reflexivity.
    + destruct (Nat.ltb_spec Validation.TITLE_MAX (String.length t));
        [unfold Validation.TITLE_MAX in *; lia | intros []].
  - intros [<- | []]. reflexivity.
Qed.

(** X23. A timetable draft for which [validateTimetableBlock] reports
    nothing has a non-blank title of at most 100 characters, a date that is
    YYYY-MM-DD, a start that is a valid time of day, an end that is
    missing, empty or a valid time of day strictly later than the start,
    and a valid color. *)
Theorem accepted_block_is_well_formed (data : Validation.BlockDraft) :
  Validation.validateTimetableBlock data = [] ->
  (exists t, Validation.k_title data = Some t /\ Utils.trim t <> ""
             /\ (String.length t <= 100)%nat)
  /\ (exists d, Validation.k_date data = Some d
                /\ ExamStore.isDateOnly d = true)
  /\ (exists s, Validation.k_start data = Some s
                /\ Utils.isValidTime s = true
                /\ forall e, Validation.k_end data = Some e ->
                     e = ""
                     \/ (Utils.isValidTime e = true
                         /\ Utils.minutesOfDay s < Utils.minutesOfDay e))
  /\ (exists t, Validation.k_tag data = Some t
                /\ Utils.isValidHexColor t = true).
Proof.
  unfold Validation.validateTimetableBlock. intros Hnil.
  apply app_eq_nil in Hnil. destruct Hnil as [Htitle Hnil].
  apply app_eq_nil in Hnil. destruct Hnil as [Hdate Hnil].
  apply app_eq_nil in Hnil. destruct Hnil as [Hstart Hnil].
  apply app_eq_nil in Hnil. destruct Hnil as [Hend Hnil].
  apply app_eq_nil in Hnil. destruct Hnil as [Hafter Htag].
  split; [exact (titleErrors_nil _ Htitle) |].
  split.
  { destruct (Validation.present (Validation.k_date data)) as [d |] eqn:Hp;
      [| discriminate].
    apply present_Some in Hp. destruct Hp as [Hd _].
    destruct (ExamStore.isDateOnly d) eqn:Hv; [| discriminate].
    exists d. tauto. }
  split; [| exact (tagErrors_nil _ Htag)].
  destruct (Validation.present (Validation.k_start data)) as [s |] eqn:Hp;
    [| discriminate].
  apply present_Some in Hp. destruct Hp as [Hs _].
  destruct (Utils.isValidTime s) eqn:Hv; [| discriminate].
  exists s. split; [exact Hs |]. split; [exact Hv |].
  intros e He. rewrite He in Hend, Hafter.
  destruct e as [| c r]; [left; reflexivity | right].
  cbn [Validation.present] in Hend, Hafter.
  destruct (Utils.isValidTime (String c r)); [| discriminate].
  split; [reflexivity |].
  cbn [andb] in Hafter.
  destruct (Z.leb_spec (Utils.minutesOfDay (String c r)) (Utils.minutesOfDay s));
    [discriminate | assumption].
Qed.

Section ValidatorFacts.

Variable isValidDate : string -> bool.
Variable toLowerCase : string -> string.

(** X22. On a draft that went through [sanitizeExam], [validateExam] never
    reports a title or notes that are too long.  When it reports nothing,
    the title is non-blank, at most 100 characters long and free of angle
    brackets, the date is present and parses, the time is missing, empty or
    a valid time of day, the tag is the lower-cased input and a valid
    color, and the notes are at most 500 characters long and free of angle
    brackets. *)
Theorem sanitized_exam_passes_validation (data : Validation.ExamDraft) :
  let clean := Validation.sanitizeExam toLowerCase data in
  let errors := Validation.validateExam isValidDate clean in
  (forall e, In e errors ->
     Validation.field e <> "notes"
     /\ Validation.message e <> "Title must be less than 100 characters")
  /\ (errors = [] ->
      (exists t, Validation.d_title clean = Some t /\ Utils.trim t <> ""
                 /\ (String.length t <= 100)%nat
                 /\ forall c, In c (Utils.chars t) ->
                      c <> "<"%char /\ c <> ">"%char)
      /\ (exists d, Validation.d_date data = Some d /\ d <> ""
                    /\ isValidDate d = true)
      /\ (forall t, Validation.d_time data = Some t ->
            t = "" \/ Utils.isValidTime t = true)
      /\ (exists raw, Validation.d_tag data = Some raw
                      /\ Validation.d_tag clean = Some (toLowerCase raw)
                      /\ Utils.isValidHexColor (toLowerCase raw) = true)
      /\ (forall n, Validation.d_notes clean = Some n ->
            (String.length n <= 500)%nat
            /\ forall c, In c (Utils.chars n) ->
                 c <> "<"%char /\ c <> ">"%char)).
Proof.
  cbv zeta. unfold Validation.validateExam, Validation.sanitizeExam.
  cbn [Validation.d_title Validation.d_date Validation.d_time Validation.d_tag
       Validation.d_notes].
  assert (Hnotes : match Validation.present
                           (Validation.sanitizeText (Validation.d_notes data)
                              Validation.NOTES_MAX) with
                   | Some n =>
                       if (Validation.NOTES_MAX <? String.length n)%nat
                       then [Validation.mkError "notes"
                               "Notes must be less than 500 characters"]
                       else []
                   | None => []
                   end = []).
  { destruct (Validation.present _) as [n |] eqn:Hp; [| reflexivity].
    apply present_Some in Hp. destruct Hp as [Hs _].
    apply sanitizeText_bounds in Hs. destruct Hs as [Hlen _].
    destruct (Nat.ltb_spec Validation.NOTES_MAX (String.length n));
      [unfold Validation.NOTES_MAX in *; lia | reflexivity]. }
  rewrite Hnotes, app_nil_r. clear Hnotes.
  split.
  - intros e He.
    repeat (apply in_app_or in He; destruct He as [He | He]).
    + apply titleErrors_sanitized in He. subst e. split; discriminate.
    + destruct (Validation.present (Validation.d_date data)) as [d |];
        [destruct (isValidDate d) |]; cbn [In] in He;
        try contradiction; destruct He as [<- | []]; split; discriminate.
    + destruct (Validation.present (Validation.d_time data)) as [tm |];
        [destruct (Utils.isValidTime tm) |]; cbn [In] in He;
        try contradiction; destruct He as [<- | []]; split; discriminate.
    + unfold Validation.tagErrors in He.
      destruct (Validation.present _) as [tg |];
        [destruct (Utils.isValidHexColor tg) |]; cbn [In] in He;
        try contradiction; destruct He as [<- | []]; split; discriminate.
  - intros Hnil.
    apply app_eq_nil in Hnil. destruct Hnil as [Htitle Hnil].
    apply app_eq_nil in Hnil. destruct Hnil as [Hdate Hnil].
    apply app_eq_nil in Hnil. destruct Hnil as [Htime Htag].
    split; [| split; [| split; [| split]]].
    + destruct (titleErrors_nil _ Htitle) as (t & Ht & Hnb & Hlen).
      exists t. split; [exact Ht |]. split; [exact Hnb |].
      split; [exact Hlen |].
      exact (proj2 (sanitizeText_bounds _ _ _ Ht)).
    + destruct (Validation.present (Validation.d_date data)) as [d |] eqn:Hp;
        [| discriminate].
      apply present_Some in Hp. destruct Hp as [Hd Hne].
      destruct (isValidDate d) eqn:Hv; [| discriminate].
      exists d. tauto.
    + intros t Ht. rewrite Ht in Htime.
      destruct t as [| c r]; [left; reflexivity | right].
      cbn [Validation.present] in Htime.
      destruct (Utils.isValidTime (String c r));
        [reflexivity | discriminate].
    + destruct (tagErrors_nil _ Htag) as (tg & Hs & Hv).
      unfold Validation.sanitizeTag in Hs.
      destruct (Validation.d_tag data) as [raw |]; [| discriminate].
      apply present_Some in Hs. destruct Hs as [Hs Hne].
      injection Hs as <-. exists raw.
      split; [reflexivity |]. split; [| exact Hv].
      unfold Validation.sanitizeTag.
      destruct (toLowerCase raw); [congruence | reflexivity].
    + intros n Hn. unfold Validation.NOTES_MAX in Hn.
      apply (sanitizeText_bounds _ _ _ Hn).
Qed.

End ValidatorFacts.

Lemma sanitized_exam_passes_validation_witness :
  Validation.validateExam anyDate
    (Validation.sanitizeExam ExamStore.asciiLower mathDraft) = []
  /\ Validation.d_title (Validation.sanitizeExam ExamStore.asciiLower mathDraft)
     = Some "bMath/b".
Proof.
  assert (H : Validation.validateExam anyDate
                (Validation.sanitizeExam ExamStore.asciiLower mathDraft) = [])
    by (vm_compute; reflexivity).
  split; [exact H |].
  destruct (proj2 (sanitized_exam_passes_validation anyDate ExamStore.asciiLower
                     mathDraft) H) as ((t & Ht & _) & _).
  rewrite Ht. vm_compute in Ht. injection Ht as <-. reflexivity.
Defined.

Lemma accepted_block_is_well_formed_witness :
  Validation.validateTimetableBlock lunchDraft = []
  /\ exists s, Validation.k_start lunchDraft = Some s
               /\ Utils.isValidTime s = true.
Proof.
  assert (H : Validation.validateTimetableBlock lunchDraft = [])
    by (vm_compute; reflexivity).
  split; [exact H |].
  destruct (accepted_block_is_well_formed lunchDraft H)
    as (_ & _ & (s & Hs & Hv & _) & _).
  exists s. split; [exact Hs | exact Hv].
Defined.
